(** * The cycloid drive controller ([src/drive/controller.cc])

    A shallow embedding of [DriveController] and the proofs of its
    specification.  The controller computes with C [float] and [double]
    values; both are modelled bit-exactly (up to NaN payloads) with the
    IEEE-754 specification of the Rocq core library ([SpecFloat]):
    [float] is binary32, [double] is binary64, every operation rounds to
    nearest-even once, in the type C++ gives the expression, and the
    operations are evaluated one by one as written (no fused
    multiply-add).  All definitions compute. *)

From Stdlib Require Import ZArith Lia Bool List.
From Stdlib Require Import Floats.SpecFloat.
From coqutil Require Import Byte Word.LittleEndianList.
Import ListNotations.
Local Open Scope Z_scope.
Set Warnings "-notation-for-abbreviation".

(** ** Floating-point formats *)

(** A value of either format is a [spec_float]: a signed zero, a signed
    infinity, NaN, or sign, mantissa and exponent. *)

(** C [float]: IEEE-754 binary32. *)
Module F32.
Definition prec := 24.
Definition emax := 128.
Definition t := spec_float.

Definition add : t -> t -> t := SFadd prec emax.
Definition sub : t -> t -> t := SFsub prec emax.
Definition mul : t -> t -> t := SFmul prec emax.
Definition div : t -> t -> t := SFdiv prec emax.
Definition sqrt : t -> t := SFsqrt prec emax.
Definition opp : t -> t := SFopp.
Definition abs : t -> t := SFabs.

(** C comparisons: every one of them is false on NaN. *)
Definition eqb : t -> t -> bool := SFeqb.
Definition ltb : t -> t -> bool := SFltb.
Definition leb : t -> t -> bool := SFleb.
Definition gtb (x y : t) : bool := SFltb y x.

(** Conversion of a C integer. *)
Definition of_Z (n : Z) : t := binary_normalize prec emax n 0 false.

(** Conversion of a number of another format: to nearest-even, exact
    when the number is representable. *)
Definition round (x : spec_float) : t :=
  match x with
  | S754_finite s m e => binary_round prec emax s m e
  | _ => x
  end.

(** A number of the format: neither NaN nor infinite, and in the
    canonical representation of the format. *)
Definition is_number (x : t) : bool :=
  match x with
  | S754_zero _ => true
  | S754_finite _ m e => bounded prec emax m e
  | _ => false
  end.

Definition is_nan (x : t) : bool :=
  match x with
  | S754_nan => true
  | _ => false
  end.

Definition is_zero (x : t) : bool :=
  match x with
  | S754_zero _ => true
  | _ => false
  end.
End F32.

(** C [double]: IEEE-754 binary64. *)
Module F64.
Definition prec := 53.
Definition emax := 1024.
Definition t := spec_float.

Definition add : t -> t -> t := SFadd prec emax.
Definition sub : t -> t -> t := SFsub prec emax.
Definition mul : t -> t -> t := SFmul prec emax.
Definition div : t -> t -> t := SFdiv prec emax.
Definition sqrt : t -> t := SFsqrt prec emax.
Definition opp : t -> t := SFopp.
Definition abs : t -> t := SFabs.

(** C comparisons: every one of them is false on NaN. *)
Definition eqb : t -> t -> bool := SFeqb.
Definition ltb : t -> t -> bool := SFltb.
Definition leb : t -> t -> bool := SFleb.
Definition gtb (x y : t) : bool := SFltb y x.

(** Conversion of a C integer. *)
Definition of_Z (n : Z) : t := binary_normalize prec emax n 0 false.

(** Conversion of a number of another format: to nearest-even, exact
    when the number is representable. *)
Definition round (x : spec_float) : t :=
  match x with
  | S754_finite s m e => binary_round prec emax s m e
  | _ => x
  end.

(** A number of the format: neither NaN nor infinite, and in the
    canonical representation of the format. *)
Definition is_number (x : t) : bool :=
  match x with
  | S754_zero _ => true
  | S754_finite _ m e => bounded prec emax m e
  | _ => false
  end.

Definition is_nan (x : t) : bool :=
  match x with
  | S754_nan => true
  | _ => false
  end.

Definition is_zero (x : t) : bool :=
  match x with
  | S754_zero _ => true
  | _ => false
  end.
End F64.

(** A number of the format with precision [prec] and largest exponent
    [emax], in canonical form and of magnitude under [2 ^ B]. *)
Definition number_below (prec emax B : Z) (x : spec_float) : bool :=
  match x with
  | S754_zero _ => true
  | S754_finite _ m e =>
    bounded prec emax m e && (Zpos (digits2_pos m) + e <=? B)
  | _ => false
  end.

(** The values of the integer types of C, up to 64 bits wide. *)
Definition c_integer (n : Z) : Prop := - 2 ^ 63 <= n < 2 ^ 63.

(** [x] carries the sign [s]; NaN carries none. *)
Definition same_sign (s : bool) (x : spec_float) : bool :=
  match x with
  | S754_zero s' | S754_infinity s' | S754_finite s' _ _ => Bool.eqb s s'
  | S754_nan => false
  end.

(** [(float) d] and [(double) f]. *)
Definition to_float (d : F64.t) : F32.t := F32.round d.
Definition to_double (f : F32.t) : F64.t := F64.round f.

Declare Scope f32_scope.
Delimit Scope f32_scope with f32.
Infix "+" := F32.add : f32_scope.
Infix "-" := F32.sub : f32_scope.
Infix "*" := F32.mul : f32_scope.
Infix "/" := F32.div : f32_scope.
Notation "- x" := (F32.opp x) : f32_scope.
Infix "<" := F32.ltb : f32_scope.
Infix "<=" := F32.leb : f32_scope.
Infix ">" := F32.gtb : f32_scope.
Infix "==" := F32.eqb (at level 70) : f32_scope.

Declare Scope f64_scope.
Delimit Scope f64_scope with f64.
Infix "+" := F64.add : f64_scope.
Infix "-" := F64.sub : f64_scope.
Infix "*" := F64.mul : f64_scope.
Infix "/" := F64.div : f64_scope.
Notation "- x" := (F64.opp x) : f64_scope.
Infix "<" := F64.ltb : f64_scope.
Infix "<=" := F64.leb : f64_scope.
Infix ">" := F64.gtb : f64_scope.

(** ** Literals and constants *)

(** The [double] literal with decimal value [num / den].  Both integers
    are exact in binary64 and the division rounds correctly, so this is
    the nearest [double], which is the value the compiler gives the
    literal. *)
Definition dec (num den : Z) : F64.t := (F64.of_Z num / F64.of_Z den)%f64.

(** [M_PI] of [math.h], 0x400921FB54442D18. *)
Definition M_PI : F64.t := S754_finite false 7074237752028440 (-51).

Definition f0 : F32.t := F32.of_Z 0.
Definition f1 : F32.t := F32.of_Z 1.
Definition f2 : F32.t := F32.of_Z 2.
Definition fm1 : F32.t := F32.of_Z (-1).

Definition V_ALPHA : F32.t := to_float (dec 3 10).
Definition BW_SRV : F32.t := to_float (F64.of_Z 2 * M_PI * F64.of_Z 4)%f64.
Definition M_K1 : F32.t := to_float (dec 258 100).
Definition M_K2 : F32.t := to_float (dec 93 1000).
Definition M_K3 : F32.t := to_float (dec 218 1000).
Definition M_OFFSET : F32.t := to_float (dec 103 1000).
Definition GEOM_LF : F32.t := to_float (dec 65 10 * dec 254 10000)%f64.
Definition GEOM_LR : F32.t := to_float (F64.of_Z 5 * dec 254 10000)%f64.

(** ** Data model *)

(** The numeric members of [DriveController], in the order [Serialize]
    writes them. *)
Record State := mkState {
  x_ : F32.t;  y_ : F32.t;  theta_ : F32.t;
  vf_ : F32.t;  vr_ : F32.t;  w_ : F32.t;
  ierr_v_ : F32.t;  ierr_w_ : F32.t;
  delta_ : F32.t;
  target_k_ : F32.t;  target_v_ : F32.t;  target_w_ : F32.t;
  ye_ : F32.t;  psie_ : F32.t;  k_ : F32.t;
  bw_w_ : F32.t;  bw_v_ : F32.t
}.

(** Modelled from the spec: the declaration of [DriverConfig] is in a
    header that is not among the sources; its members are
    "percentage-style integers scaled by 0.01 before use", so each is a C
    integer here. *)
Record DriverConfig := mkConfig {
  speed_limit : Z;
  traction_limit : Z;
  steering_kpy : Z;
  steering_kvy : Z;
  yaw_bw : Z;
  motor_bw : Z
}.

(** What [track_.GetTarget] stores through its five pointers when it
    succeeds. *)
Record TrackTarget := mkTarget {
  t_cx : F32.t;  t_cy : F32.t;
  t_nx : F32.t;  t_ny : F32.t;
  t_k : F32.t
}.

Definition set_path_diag (st : State) (ye psie k targetk : F32.t) : State :=
  {| x_ := x_ st; y_ := y_ st; theta_ := theta_ st;
     vf_ := vf_ st; vr_ := vr_ st; w_ := w_ st;
     ierr_v_ := ierr_v_ st; ierr_w_ := ierr_w_ st; delta_ := delta_ st;
     target_k_ := targetk; target_v_ := target_v_ st; target_w_ := target_w_ st;
     ye_ := ye; psie_ := psie; k_ := k;
     bw_w_ := bw_w_ st; bw_v_ := bw_v_ st |}.

Definition set_ierr_v (st : State) (v : F32.t) : State :=
  {| x_ := x_ st; y_ := y_ st; theta_ := theta_ st;
     vf_ := vf_ st; vr_ := vr_ st; w_ := w_ st;
     ierr_v_ := v; ierr_w_ := ierr_w_ st; delta_ := delta_ st;
     target_k_ := target_k_ st; target_v_ := target_v_ st; target_w_ := target_w_ st;
     ye_ := ye_ st; psie_ := psie_ st; k_ := k_ st;
     bw_w_ := bw_w_ st; bw_v_ := bw_v_ st |}.

Definition set_ierr_w (st : State) (v : F32.t) : State :=
  {| x_ := x_ st; y_ := y_ st; theta_ := theta_ st;
     vf_ := vf_ st; vr_ := vr_ st; w_ := w_ st;
     ierr_v_ := ierr_v_ st; ierr_w_ := v; delta_ := delta_ st;
     target_k_ := target_k_ st; target_v_ := target_v_ st; target_w_ := target_w_ st;
     ye_ := ye_ st; psie_ := psie_ st; k_ := k_ st;
     bw_w_ := bw_w_ st; bw_v_ := bw_v_ st |}.

Definition set_loop_diag (st : State) (tv tw bww bwv : F32.t) : State :=
  {| x_ := x_ st; y_ := y_ st; theta_ := theta_ st;
     vf_ := vf_ st; vr_ := vr_ st; w_ := w_ st;
     ierr_v_ := ierr_v_ st; ierr_w_ := ierr_w_ st; delta_ := delta_ st;
     target_k_ := target_k_ st; target_v_ := tv; target_w_ := tw;
     ye_ := ye_ st; psie_ := psie_ st; k_ := k_ st;
     bw_w_ := bww; bw_v_ := bwv |}.

(** [ResetState]: speeds, yaw rate and both integrators to zero. *)
Definition ResetState (st : State) : State :=
  {| x_ := x_ st; y_ := y_ st; theta_ := theta_ st;
     vf_ := f0; vr_ := f0; w_ := f0;
     ierr_v_ := f0; ierr_w_ := f0; delta_ := delta_ st;
     target_k_ := target_k_ st; target_v_ := target_v_ st; target_w_ := target_w_ st;
     ye_ := ye_ st; psie_ := psie_ st; k_ := k_ st;
     bw_w_ := bw_w_ st; bw_v_ := bw_v_ st |}.

(** [clip]: on NaN both tests are false and [x] itself is returned. *)
Definition clip (x min max : F32.t) : F32.t :=
  if (x < min)%f32 then min
  else if (x > max)%f32 then max
  else x.

(** ** The controller *)

(** One slip-target message of [GetControl]'s [printf]: frame number,
    slip target, [vf_] and [vr_]. *)
Record SlipEvent := mkSlipEvent {
  ev_frameno : Z;
  ev_vr_slip_target : F32.t;
  ev_vf : F32.t;
  ev_vr : F32.t
}.

(** Everything a call of [GetControl] produces: the returned flag, the
    two values stored through the output pointers, the controller state
    after the call and what was printed. *)
Record ControlResult := mkResult {
  ret : bool;
  throttle_out : F32.t;
  steering_out : F32.t;
  state : State;
  printed : list SlipEvent
}.

Section Controller.

(** Modelled from the spec: the track store ([track_], of a class whose
    source is absent) answers "the nearest path point, its
    lateral-normal direction, and local path curvature, or signals no
    target".  [GetTarget x y] is that answer at position [(x, y)]. *)
Variable GetTarget : F32.t -> F32.t -> option TrackTarget.

(** The functions of [math.h] that IEEE-754 does not define, as
    functions on [double].  ([sqrt] and [fabs] are IEEE operations and
    are [F64.sqrt] and [F64.abs].)  The source is C++ and calls them on
    [float] arguments only, which selects the [float] overloads: the
    call [sin(x)] with [x] a [float] is [to_float (sin (to_double x))],
    a [float], and every function from [float] to [float] is of this
    form ([float_overload]). *)
Variable sin : F64.t -> F64.t.
Variable cos : F64.t -> F64.t.
Variable atan2 : F64.t -> F64.t -> F64.t.

(** [config.field * 0.01], a [double]. *)
Definition percent (n : Z) : F64.t := (F64.of_Z n * dec 1 100)%f64.

(** The gains [Kpy] and [Kvy] of lines 75-76, [(float) (n * 0.01)]. *)
Definition gain (n : Z) : F32.t := to_float (percent n).

(** The locals of [TargetCurvature] its properties are about, each
    with the expression the source gives it: the lateral error of
    line 66 and the cosine and sine of the heading error of lines
    68-72. *)
Definition lateral_error (st : State) (tg : TrackTarget) : F32.t :=
  ((x_ st - t_cx tg) * t_nx tg + (y_ st - t_cy tg) * t_ny tg)%f32.

Definition heading_cos (st : State) (tg : TrackTarget) : F32.t :=
  let C := to_float (cos (to_double (theta_ st))) in
  let S := to_float (sin (to_double (theta_ st))) in
  (- S * t_nx tg + C * t_ny tg)%f32.

Definition heading_sin (st : State) (tg : TrackTarget) : F32.t :=
  let C := to_float (cos (to_double (theta_ st))) in
  let S := to_float (sin (to_double (theta_ st))) in
  (S * t_ny tg + C * t_nx tg)%f32.

(** Lines 73-77. *)
Definition feedback_law (config : DriverConfig) (ye Cp Sp k : F32.t) : F32.t :=
  let Cpy := (Cp / (f1 - k * ye))%f32 in
  let Kpy := gain (steering_kpy config) in
  let Kvy := gain (steering_kvy config) in
  (Cpy * (ye * Cpy * (- Kpy * Cp) + Sp * (k * Sp - Kvy * Cp) + k))%f32.

(** [TargetCurvature]: the returned curvature and the state after the
    call. *)
Definition TargetCurvature (config : DriverConfig) (st : State)
  : F32.t * State :=
  match GetTarget (x_ st) (y_ st) with
  | None => (f2, st)
  | Some tg =>
    let k := t_k tg in
    let ye := lateral_error st tg in
    let Cp := heading_cos st tg in
    let Sp := heading_sin st tg in
    let targetk := feedback_law config ye Cp Sp k in
    let psie := to_float (atan2 (to_double Sp) (to_double Cp)) in
    (targetk, set_path_diag st ye psie k targetk)
  end.

(** The locals of [GetControl] that the controller's properties are
    about, each with the expression the source gives it. *)

(** [k] and [vmax] when driving by hand (lines 111-112). *)
Definition manual_k (steering_in : F32.t) : F32.t :=
  to_float
    (to_double (- steering_in * f2)%f32 * F64.abs (to_double steering_in))%f64.

Definition manual_vmax (config : DriverConfig) (throttle_in : F32.t) : F32.t :=
  to_float
    (to_double (throttle_in * F32.of_Z (speed_limit config))%f32 * dec 1 100)%f64.

(** [vmax] under autodrive (line 115). *)
Definition auto_vmax (config : DriverConfig) : F32.t :=
  to_float (percent (speed_limit config)).

(** Line 118. *)
Definition kmin_of (config : DriverConfig) (vmax : F32.t) : F32.t :=
  to_float (percent (traction_limit config) / to_double (vmax * vmax)%f32)%f64.

(** The test of line 121, [fabs(k) > kmin]. *)
Definition over_kmin (k kmin : F32.t) : bool :=
  (F64.abs (to_double k) > to_double kmin)%f64.

(** Line 122. *)
Definition traction_v (config : DriverConfig) (k : F32.t) : F32.t :=
  to_float (F64.sqrt (percent (traction_limit config) / F64.abs (to_double k))%f64).

(** Line 127, [(vf_ + w_*GEOM_LF*sin(delta_)) / cos(delta_)]: every
    operand is a [float], [sin] and [cos] are the [float] overloads,
    and each of the four arithmetic operations rounds to [float]. *)
Definition vr_slip_target_of (st : State) : F32.t :=
  let S := to_float (sin (to_double (delta_ st))) in
  let C := to_float (cos (to_double (delta_ st))) in
  ((vf_ st + w_ st * GEOM_LF * S) / C)%f32.

(** The test of line 128. *)
Definition use_slip (vr_slip_target target_v : F32.t) : bool :=
  (vr_slip_target < target_v)%f32
  && (to_double vr_slip_target > F64.of_Z 1)%f64.

(** Lines 143 and 150. *)
Definition bandwidth (bw : Z) : F32.t :=
  to_float (F64.of_Z 2 * M_PI * dec 1 100 * F64.of_Z bw)%f64.

(** Line 148. *)
Definition steering_law (BW_w ierr_w err_w : F32.t) : F32.t :=
  clip (- BW_w * (ierr_w + err_w / BW_SRV))%f32 fm1 f1.

(** Lines 151-153. *)
Definition drive_law (BW_v vr err_v ierr_v : F32.t) : F32.t :=
  let Kp := (BW_v / (M_K1 - M_K2 * vr))%f32 in
  let Ki := M_K3 in
  clip (- Kp * (err_v + Ki * ierr_v) + M_OFFSET)%f32 f0 f1.

(** Lines 156-157. *)
Definition brake_law (BW_v vr err_v ierr_v : F32.t) : F32.t :=
  let Ki := M_K3 in
  let Kp2 := (BW_v / (- M_K2 * vr))%f32 in
  clip (Kp2 * (err_v + Ki * ierr_v - M_OFFSET))%f32 fm1 f0.

(** The tests of lines 161 and 165-166. *)
Definition unsaturated (out : F32.t) : bool :=
  (out > fm1)%f32 && (out < f1)%f32.

Definition yaw_accumulates (steering_out err_w ierr_w : F32.t) : bool :=
  unsaturated steering_out
  || ((err_w > f0)%f32 && (ierr_w < f0)%f32)
  || ((err_w < f0)%f32 && (ierr_w > f0)%f32).

(** The test of line 101. *)
Definition coasting (autodrive : bool) (throttle_in : F32.t) : bool :=
  negb autodrive && (throttle_in <= f0)%f32.

Definition GetControl (config : DriverConfig) (st : State)
    (throttle_in steering_in dt : F32.t) (autodrive : bool) (frameno : Z)
  : ControlResult :=
  let '(autok, st) := TargetCurvature config st in
  if coasting autodrive throttle_in then
    {| ret := true;
       throttle_out := throttle_in;
       steering_out := (- steering_in)%f32;
       state := set_ierr_v (set_ierr_w st f0) f0;
       printed := [] |}
  else
    let k := manual_k steering_in in
    let vmax := manual_vmax config throttle_in in
    let k := if autodrive then autok else k in
    let vmax := if autodrive then auto_vmax config else vmax in
    let kmin := kmin_of config vmax in
    let target_v := vmax in
    let '(target_v, out) :=
      if over_kmin k kmin then
        let target_v := traction_v config k in
        let vr_slip_target := vr_slip_target_of st in
        if use_slip vr_slip_target target_v then
          (vr_slip_target,
           [mkSlipEvent frameno vr_slip_target (vf_ st) (vr_ st)])
        else (target_v, [])
      else (target_v, []) in
    let target_w := (k * vr_ st)%f32 in
    let err_v := (vr_ st - target_v)%f32 in
    let err_w := (w_ st - target_w)%f32 in
    let BW_w := bandwidth (yaw_bw config) in
    let steering := steering_law BW_w (ierr_w_ st) err_w in
    let BW_v := bandwidth (motor_bw config) in
    let throttle := drive_law BW_v (vr_ st) err_v (ierr_v_ st) in
    let throttle :=
      if (throttle == f0)%f32 && (vr_ st > f0)%f32
      then brake_law BW_v (vr_ st) err_v (ierr_v_ st)
      else throttle in
    let st1 :=
      if unsaturated throttle
      then set_ierr_v st (ierr_v_ st + dt * err_v)%f32
      else st in
    let st2 :=
      if yaw_accumulates steering err_w (ierr_w_ st1)
      then set_ierr_w st1 (ierr_w_ st1 + dt * err_w)%f32
      else st1 in
    {| ret := true;
       throttle_out := throttle;
       steering_out := steering;
       state := set_loop_diag st2 target_v target_w BW_w BW_v;
       printed := out |}.

(** The choices [GetControl] makes in active mode, as functions of the
    state before the call: the curvature and speed ceiling of lines
    111-116 and the target speed of lines 120-133. *)
Definition selected_k (config : DriverConfig) (st : State)
    (steering_in : F32.t) (autodrive : bool) : F32.t :=
  if autodrive then fst (TargetCurvature config st) else manual_k steering_in.

Definition selected_vmax (config : DriverConfig) (throttle_in : F32.t)
    (autodrive : bool) : F32.t :=
  if autodrive then auto_vmax config else manual_vmax config throttle_in.

Definition target_speed (config : DriverConfig) (st : State) (k vmax : F32.t)
  : F32.t :=
  if over_kmin k (kmin_of config vmax) then
    if use_slip (vr_slip_target_of st) (traction_v config k)
    then vr_slip_target_of st
    else traction_v config k
  else vmax.

(** [err_v] and [err_w] of lines 140-141. *)
Definition speed_error (config : DriverConfig) (st : State)
    (throttle_in steering_in : F32.t) (autodrive : bool) : F32.t :=
  let k := selected_k config st steering_in autodrive in
  let vmax := selected_vmax config throttle_in autodrive in
  (vr_ st - target_speed config st k vmax)%f32.

Definition yaw_error (config : DriverConfig) (st : State)
    (steering_in : F32.t) (autodrive : bool) : F32.t :=
  let k := selected_k config st steering_in autodrive in
  (w_ st - k * vr_ st)%f32.

End Controller.

(** ** The state estimator *)

(** An [Eigen::Vector3f]: the accelerometer or the gyro reading. *)
Record Vector3f := mkVector3f {
  v_0 : F32.t;
  v_1 : F32.t;
  v_2 : F32.t
}.

(** The four [uint16_t] of [wheel_delta]: the encoder counts of the
    front pair (0, 1) and of the rear pair (2, 3). *)
Record WheelDelta := mkWheelDelta {
  wd_0 : Z;
  wd_1 : Z;
  wd_2 : Z;
  wd_3 : Z
}.

Definition uint16 (n : Z) : Prop := 0 <= n < 65536.
Definition uint8 (n : Z) : Prop := 0 <= n < 256.

Section Estimator.

(** Modelled from the spec: [V_SCALE] is declared in a header that is
    not among the sources; the spec calls it the scale of the velocity
    estimate.  It enters [UpdateState] only through the constant
    [V_ALPHA * V_SCALE], the first product of lines 51 and 53, which is
    taken here by its value as a [double] (the type the product is
    converted to, or has, when it meets [0.5]). *)
Variable V_ALPHA_V_SCALE : F64.t.

(** [V_ALPHA * V_SCALE * 0.5*(a + b)/dt] of lines 51 and 53, a
    [double]; the sum of two [uint16_t] is an [int]. *)
Definition speed_increment (a b : Z) (dt : F32.t) : F64.t :=
  (V_ALPHA_V_SCALE * dec 1 2 * F64.of_Z (a + b) / to_double dt)%f64.

(** One step of the filter of lines 50-51 (and 52-53): [v *= (1 -
    V_ALPHA)], then [v += increment]. *)
Definition filter_step (v : F32.t) (a b : Z) (dt : F32.t) : F32.t :=
  let v := (v * (f1 - V_ALPHA))%f32 in
  to_float (to_double v + speed_increment a b dt)%f64.

(** The servo calibration of line 47. *)
Definition servo_angle (servo_pos : Z) : F32.t :=
  to_float ((F64.of_Z servo_pos - dec 1265 10) / dec 1213 10)%f64.

Definition UpdateState (config : DriverConfig) (accel gyro : Vector3f)
    (servo_pos : Z) (wheel_delta : WheelDelta) (dt : F32.t) (st : State)
  : State :=
  {| x_ := x_ st; y_ := y_ st; theta_ := theta_ st;
     vf_ := filter_step (vf_ st) (wd_0 wheel_delta) (wd_1 wheel_delta) dt;
     vr_ := filter_step (vr_ st) (wd_2 wheel_delta) (wd_3 wheel_delta) dt;
     w_ := v_2 gyro;
     ierr_v_ := ierr_v_ st; ierr_w_ := ierr_w_ st;
     delta_ := servo_angle servo_pos;
     target_k_ := target_k_ st; target_v_ := target_v_ st;
     target_w_ := target_w_ st;
     ye_ := ye_ st; psie_ := psie_ st; k_ := k_ st;
     bw_w_ := bw_w_ st; bw_v_ := bw_v_ st |}.

End Estimator.

(** The servo positions a [uint8_t] holds, each with the steering angle
    [UpdateState] stores for it, and the test that an entry of such a
    table is a number under 1.06 in magnitude, of the sign of
    [p - 126.5], and under every entry of a greater position. *)
Definition servo_positions : list Z := map Z.of_nat (seq 0 256).

Definition servo_table : list (Z * F32.t) :=
  map (fun p => (p, servo_angle p)) servo_positions.

Definition servo_entry_ok (tbl : list (Z * F32.t)) (pd : Z * F32.t) : bool :=
  let '(p, d) := pd in
  F32.is_number d
  && (F32.abs d < to_float (dec 106 100))%f32
  && Bool.eqb (d < f0)%f32 (p <=? 126)
  && Bool.eqb (d > f0)%f32 (127 <=? p)
  && forallb (fun qe : Z * F32.t => implb (p <? fst qe) (d < snd qe)%f32) tbl.

Definition servo_table_ok (tbl : list (Z * F32.t)) : bool :=
  forallb (servo_entry_ok tbl) tbl.

(** ** Serialization *)

(** The object representation of a [float]: sign bit, eight bits of
    biased exponent, twenty-three bits of fraction.  A NaN carries no
    payload in [spec_float]; it is given the quiet NaN pattern. *)
Definition bits_of_float (x : F32.t) : Z :=
  let sign (s : bool) := Z.shiftl (Z.b2z s) 31 in
  match x with
  | S754_zero s => sign s
  | S754_infinity s => Z.lor (sign s) 0x7f800000
  | S754_nan => 0x7fc00000
  | S754_finite s m e =>
    if 0x800000 <=? Zpos m
    then Z.lor (sign s) (Z.lor (Z.shiftl (e + 150) 23) (Zpos m - 0x800000))
    else Z.lor (sign s) (Zpos m)
  end.

Definition sizeof_float : nat := 4.

(** The bytes of a [float] in memory, in the byte order of the target
    (little-endian). *)
Definition float_bytes (x : F32.t) : list byte :=
  le_split sizeof_float (bits_of_float x).

(** [overwrite buf src]: the first bytes of [buf] replaced by [src]. *)
Fixpoint overwrite (buf src : list byte) {struct src} : list byte :=
  match src, buf with
  | s :: src', _ :: buf' => s :: overwrite buf' src'
  | _, _ => buf
  end.

(** [memcpy(buf + off, src, n)] on a buffer held as the list of its
    bytes. *)
Fixpoint memcpy (buf : list byte) (off : nat) (src : list byte) (n : nat)
  : list byte :=
  match off, buf with
  | O, _ => overwrite buf (firstn n src)
  | S off', b :: buf' => b :: memcpy buf' off' src n
  | S _, [] => []
  end.

Definition SerializedSize : Z := Z.of_nat sizeof_float * 17.

(** [Serialize]: [None] when the assertion fails, else the buffer after
    the seventeen copies and the returned count. *)
Definition Serialize (st : State) (buf : list byte) (buflen : Z)
  : option (list byte * Z) :=
  if buflen <? 68 then None
  else
    let buf := memcpy buf 0 (float_bytes (x_ st)) 4 in
    let buf := memcpy buf 4 (float_bytes (y_ st)) 4 in
    let buf := memcpy buf 8 (float_bytes (theta_ st)) 4 in
    let buf := memcpy buf 12 (float_bytes (vf_ st)) 4 in
    let buf := memcpy buf 16 (float_bytes (vr_ st)) 4 in
    let buf := memcpy buf 20 (float_bytes (w_ st)) 4 in
    let buf := memcpy buf 24 (float_bytes (ierr_v_ st)) 4 in
    let buf := memcpy buf 28 (float_bytes (ierr_w_ st)) 4 in
    let buf := memcpy buf 32 (float_bytes (delta_ st)) 4 in
    let buf := memcpy buf 36 (float_bytes (target_k_ st)) 4 in
    let buf := memcpy buf 40 (float_bytes (target_v_ st)) 4 in
    let buf := memcpy buf 44 (float_bytes (target_w_ st)) 4 in
    let buf := memcpy buf 48 (float_bytes (ye_ st)) 4 in
    let buf := memcpy buf 52 (float_bytes (psie_ st)) 4 in
    let buf := memcpy buf 56 (float_bytes (k_ st)) 4 in
    let buf := memcpy buf 60 (float_bytes (bw_w_ st)) 4 in
    let buf := memcpy buf 64 (float_bytes (bw_v_ st)) 4 in
    Some (buf, 68).

(** The seventeen members and the nine of them the control laws read. *)
Definition members (st : State) : list F32.t :=
  [x_ st; y_ st; theta_ st; vf_ st; vr_ st; w_ st;
   ierr_v_ st; ierr_w_ st; delta_ st;
   target_k_ st; target_v_ st; target_w_ st;
   ye_ st; psie_ st; k_ st; bw_w_ st; bw_v_ st].

Definition control_members (st : State) : list F32.t :=
  [x_ st; y_ st; theta_ st; vf_ st; vr_ st; w_ st;
   ierr_v_ st; ierr_w_ st; delta_ st].

(** The pose: position and heading. *)
Definition pose_members (st : State) : list F32.t := [x_ st; y_ st; theta_ st].

(** Every member is a value a [float] object can hold: a finite one is
    in the canonical form of binary32. *)
Definition state_valid (st : State) : bool :=
  forallb (valid_binary 24 128) (members st).

(** ** Concrete inputs *)

(** The [float] nearest to [num / den]. *)
Definition flt (num den : Z) : F32.t := to_float (dec num den).

(** No path loaded: the track store has no target anywhere. *)
Definition no_track (x y : F32.t) : option TrackTarget := None.

(** A straight path along the x axis through the origin bent to
    curvature [k]: reference point (0, 0), left normal (0, 1). *)
Definition track_along_x (k : F32.t) (x y : F32.t) : option TrackTarget :=
  Some (mkTarget f0 f0 f0 f1 k).

(** The functions of [math.h] at the arguments where C (Annex F) fixes
    their value exactly: [sin(+-0) = +-0], [cos(+-0) = 1] and
    [atan2(+-0, x) = +-0] for [x > 0].  Elsewhere these stand-ins answer
    NaN; the evaluations below call them at zero only. *)
Definition sin_at_zero (x : F64.t) : F64.t :=
  if F64.is_zero x then x else S754_nan.

Definition cos_at_zero (x : F64.t) : F64.t :=
  if F64.is_zero x then F64.of_Z 1 else S754_nan.

Definition atan2_at_zero (y x : F64.t) : F64.t :=
  if F64.is_zero y && (x > F64.of_Z 0)%f64 then y else S754_nan.

(** The config of the spec's end-to-end scenario: speed limit 500,
    traction limit 300, kpy 100, kvy 50, yaw and motor bandwidth 50. *)
Definition scenario_config : DriverConfig := mkConfig 500 300 100 50 50 50.

(** The car at the origin heading along x, front and rear speed [v],
    both integrators and every diagnostic holding [d]. *)
Definition state_at_origin (v d : F32.t) : State :=
  mkState f0 f0 f0 v v f0 d d f0 d d d d d d d d.

(** The car at [(0, y)] heading along x, at rest. *)
Definition state_at_rest (y : F32.t) : State :=
  mkState f0 y f0 f0 f0 f0 f0 f0 f0 f0 f0 f0 f0 f0 f0 f0 f0.

(** The eight diagnostic members. *)
Definition diagnostics (st : State) : list F32.t :=
  [target_k_ st; target_v_ st; target_w_ st; ye_ st; psie_ st; k_ st;
   bw_w_ st; bw_v_ st].

(** A state with seventeen different members. *)
Definition sample_state : State :=
  mkState (flt 1 2) (flt (-3) 2) (flt 1 4)
    (flt 11 10) (flt 12 10) (flt (-3) 10)
    (flt 1 100) (flt (-2) 100)
    (flt 1 10)
    f2 (flt 3 2) (flt 3 1)
    (flt 1 8) (flt (-3) 4) (flt 2 10)
    (bandwidth 50) (bandwidth 100).

(** The floats nearest to the sine and the cosine of the steering angle
    of servo position 0, -1.0428689: -0.8638530 and 0.5037439. *)
Definition sin_servo_0 : F32.t := S754_finite true 14493049 (-24).

Definition cos_servo_0 : F32.t := S754_finite false 8451421 (-24).

(** [sin] and [cos] knowing that angle too. *)
Definition sin_at_servo_0 (x : F64.t) : F64.t :=
  if F64.eqb x (to_double (servo_angle 0)) then to_double sin_servo_0
  else sin_at_zero x.

Definition cos_at_servo_0 (x : F64.t) : F64.t :=
  if F64.eqb x (to_double (servo_angle 0)) then to_double cos_servo_0
  else cos_at_zero x.

(** The car at the origin with the servo at position 0: front speed
    0.6019153, rear speed 2, yaw rate 0.6883317. *)
Definition state_in_turn : State :=
  mkState f0 f0 f0
    (S754_finite false 10098463 (-24)) f2 (S754_finite false 11548289 (-24))
    f0 f0 (servo_angle 0)
    f0 f0 f0 f0 f0 f0 f0 f0.

(** The same turn at front speed 1 and yaw rate 2.8, rear speed [vr]. *)
Definition state_turning (vr : F32.t) : State :=
  mkState f0 f0 f0 f1 vr (flt 28 10) f0 f0 (servo_angle 0)
    f0 f0 f0 f0 f0 f0 f0 f0.

(** A value for the constant [V_ALPHA * V_SCALE]: 0.015, that is a
    scale of 0.05. *)
Definition sample_scale : F64.t := dec 15 1000.

(** The sensors of a car that does not turn. *)
Definition level : Vector3f := mkVector3f f0 f0 f0.

(** * Properties *)

(** ** The constants

    The bit patterns of the constants, as a compiler for the target
    computes them. *)
Example constants_bits :
  map bits_of_float
    [V_ALPHA; BW_SRV; M_K1; M_K2; M_K3; M_OFFSET; GEOM_LF; GEOM_LR;
     f0; f1; f2; fm1]
  = [0x3e99999a; 0x41c90fdb; 0x40251eb8; 0x3dbe76c9; 0x3e5f3b64; 0x3dd2f1aa;
     0x3e290ff9; 0x3e020c4a; 0; 0x3f800000; 0x40000000; 0xbf800000].
Proof. vm_compute. reflexivity. Qed.

(** ** Facts of binary32 arithmetic *)

(** The order of two floats read the other way round. *)
Lemma SFcompare_antisym (x y : spec_float) :
  SFcompare y x = option_map CompOpp (SFcompare x y).
Proof.
  destruct x as [sx|sx| |sx mx ex], y as [sy|sy| |sy my ey]; simpl;
    try destruct sx; try destruct sy; simpl; try reflexivity.
  all: rewrite (Z.compare_antisym ey ex); destruct (ey ?= ex); simpl;
    try reflexivity.
  all: rewrite ?Pos.compare_cont_antisym; simpl;
    rewrite ?CompOpp_involutive; reflexivity.
Qed.

Lemma SFcompare_refl (x : spec_float) :
  F32.is_nan x = false -> SFcompare x x = Some Eq.
Proof.
  destruct x as [s|s| |s m e]; simpl; intros H; try discriminate;
    try (destruct s; reflexivity).
  destruct s; rewrite Z.compare_refl, Pos.compare_cont_refl; reflexivity.
Qed.

Lemma SFcompare_opp (x y : spec_float) :
  SFcompare (SFopp x) (SFopp y) = SFcompare y x.
Proof.
  destruct x as [sx|sx| |sx mx ex], y as [sy|sy| |sy my ey]; simpl;
    try destruct sx; try destruct sy; simpl; try reflexivity.
  all: rewrite (Z.compare_antisym ex ey); destruct (ex ?= ey); simpl;
    try reflexivity.
  all: rewrite ?Pos.compare_cont_antisym; simpl;
    rewrite ?CompOpp_involutive; reflexivity.
Qed.

Lemma SFcompare_nan_l (x y : spec_float) :
  F32.is_nan x = true -> SFcompare x y = None.
Proof. destruct x; simpl; intros H; try discriminate; reflexivity. Qed.

Lemma SFcompare_some (x y : spec_float) :
  F32.is_nan x = false -> F32.is_nan y = false ->
  exists c, SFcompare x y = Some c.
Proof.
  destruct x as [sx|sx| |sx mx ex], y as [sy|sy| |sy my ey]; simpl;
    intros Hx Hy; try discriminate; eexists; reflexivity.
Qed.

(** [x < y] and [x <= y] as the C tests the controller makes. *)
Lemma ltb_leb (x y : F32.t) : (x < y)%f32 = true -> (x <= y)%f32 = true.
Proof.
  unfold F32.ltb, F32.leb, SFltb, SFleb.
  destruct (SFcompare x y) as [[]|]; intros H; try discriminate; reflexivity.
Qed.

Lemma leb_not_gtb (x y : F32.t) : (x <= y)%f32 = true -> (x > y)%f32 = false.
Proof.
  unfold F32.gtb, F32.leb, SFltb, SFleb. rewrite (SFcompare_antisym x y).
  destruct (SFcompare x y) as [[]|]; intros H; try discriminate; reflexivity.
Qed.

Lemma eqb_not_ltb (x y : F32.t) : (x == y)%f32 = true -> (x < y)%f32 = false.
Proof.
  unfold F32.eqb, F32.ltb, SFeqb, SFltb.
  destruct (SFcompare x y) as [[]|]; intros H; try discriminate; reflexivity.
Qed.

Lemma not_ltb_leb (x y : F32.t) :
  F32.is_nan x = false -> F32.is_nan y = false ->
  (x < y)%f32 = false -> (y <= x)%f32 = true.
Proof.
  intros Hx Hy. unfold F32.ltb, F32.leb, SFltb, SFleb.
  rewrite (SFcompare_antisym x y).
  destruct (SFcompare_some x y Hx Hy) as [c ->].
  destruct c; simpl; intros H; try discriminate; reflexivity.
Qed.

Lemma leb_refl (x : F32.t) : F32.is_nan x = false -> (x <= x)%f32 = true.
Proof.
  intros H. unfold F32.leb, SFleb. rewrite (SFcompare_refl x H). reflexivity.
Qed.

(** What [clip] guarantees: its result is NaN (only when [x] is) or lies
    between the two bounds. *)
Lemma clip_nan (x lo hi : F32.t) :
  F32.is_nan x = true -> clip x lo hi = x.
Proof.
  intros H. unfold clip, F32.ltb, F32.gtb, SFltb.
  rewrite (SFcompare_antisym x hi), (SFcompare_nan_l x lo H),
    (SFcompare_nan_l x hi H).
  reflexivity.
Qed.

Lemma clip_between (x lo hi : F32.t) :
  F32.is_nan lo = false -> F32.is_nan hi = false ->
  (lo <= hi)%f32 = true ->
  F32.is_nan x = false ->
  (lo <= clip x lo hi)%f32 = true /\ (clip x lo hi <= hi)%f32 = true.
Proof.
  intros Hlo Hhi Hle Hx. unfold clip.
  destruct (x < lo)%f32 eqn:E1.
  - split; [apply leb_refl; exact Hlo | exact Hle].
  - destruct (x > hi)%f32 eqn:E2.
    + split; [exact Hle | apply leb_refl; exact Hhi].
    + split.
      * apply not_ltb_leb; assumption.
      * apply not_ltb_leb; assumption.
Qed.

Lemma clip_is_nan (x lo hi : F32.t) :
  F32.is_nan lo = false -> F32.is_nan hi = false ->
  F32.is_nan (clip x lo hi) = F32.is_nan x.
Proof.
  intros Hlo Hhi. unfold clip.
  destruct (x < lo)%f32 eqn:E1.
  - rewrite Hlo. destruct x; simpl in *; try reflexivity; discriminate.
  - destruct (x > hi)%f32 eqn:E2; [|reflexivity].
    rewrite Hhi. destruct x; simpl in *; try reflexivity.
    unfold F32.gtb, SFltb in E2.
    destruct hi; simpl in E2; discriminate.
Qed.

(** Equality with the constants 0 and 1. *)
Lemma eqb_f0_zero (x : F32.t) : (x == f0)%f32 = true -> F32.is_zero x = true.
Proof.
  destruct x as [s|s| |s m e]; simpl; intros H; try reflexivity;
    try discriminate; destruct s; discriminate.
Qed.

Lemma eqb_f1_eq (x : F32.t) : (x == f1)%f32 = true -> x = f1.
Proof.
  change f1 with (S754_finite false 8388608 (-23)).
  destruct x as [s|s| |s m e]; simpl; intros H; try discriminate;
    destruct s; try discriminate.
  unfold F32.eqb, SFeqb, SFcompare in H.
  destruct (e ?= -23) eqn:He; try discriminate.
  destruct (Pos.compare_cont Eq m 8388608) eqn:Hm; try discriminate.
  apply Z.compare_eq in He. apply Pos.compare_eq in Hm. subst. reflexivity.
Qed.

Lemma eqb_number_refl (x : F32.t) :
  F32.is_number x = true -> (x == x)%f32 = true.
Proof.
  intros H. unfold F32.eqb, SFeqb. rewrite SFcompare_refl; [reflexivity|].
  destruct x; try reflexivity; discriminate.
Qed.

(** Multiplication by 1 is exact on the numbers of the format: the
    product of the mantissas has twenty-three low zero bits, which the
    rounding shifts out without loss. *)
Lemma bounded32_inv (m : positive) (e : Z) :
  bounded 24 128 m e = true ->
  Z.max (Zpos (digits2_pos m) + e - 24) (-149) = e /\ e <= 104.
Proof.
  unfold bounded, canonical_mantissa, fexp, emin. intros H.
  apply andb_prop in H. destruct H as [H1 H2].
  apply Z.eqb_eq in H1. apply Z.leb_le in H2. lia.
Qed.

Lemma mul_comm (x y : F32.t) : (x * y)%f32 = (y * x)%f32.
Proof.
  destruct x as [sx|sx| |sx mx ex], y as [sy|sy| |sy my ey]; simpl;
    try reflexivity; try (rewrite xorb_comm; reflexivity).
  unfold F32.mul, SFmul.
  rewrite xorb_comm, Pos.mul_comm, Z.add_comm. reflexivity.
Qed.

Lemma mul_one_finite (s : bool) (m : positive) (e : Z) :
  bounded 24 128 m e = true ->
  (f1 * S754_finite s m e)%f32 = S754_finite s m e.
Proof.
  intros H. destruct (bounded32_inv m e H) as [Hc He].
  change f1 with (S754_finite false 8388608 (-23)).
  unfold F32.mul, SFmul.
  change (xorb false s) with s.
  cbn [Pos.mul].
  unfold binary_round_aux, shr_fexp, fexp, emin.
  cbn [Zdigits2 digits2_pos].
  match goal with
  | |- context [shr _ _ ?n] =>
    replace n with 23 by (unfold F32.prec, F32.emax; lia)
  end.
  cbn [shr iter_pos shr_record_of_loc shr_1 orb].
  cbn [shr_m loc_of_shr_record round_nearest_even Zdigits2].
  match goal with
  | |- context [shr _ _ ?n] =>
    replace n with 0 by (unfold F32.prec, F32.emax; lia)
  end.
  cbn [shr shr_m shr_record_of_loc].
  replace (-23 + e + 23 <=? F32.emax - F32.prec) with true
    by (symmetry; apply Z.leb_le; unfold F32.prec, F32.emax; lia).
  f_equal. lia.
Qed.

Lemma mul_one_l (x : F32.t) : F32.is_number x = true -> (f1 * x)%f32 = x.
Proof.
  destruct x as [s|s| |s m e]; simpl; intros H; try discriminate.
  - reflexivity.
  - apply mul_one_finite. exact H.
Qed.

Lemma mul_one_r (x : F32.t) : F32.is_number x = true -> (x * f1)%f32 = x.
Proof. intros H. rewrite mul_comm. apply mul_one_l. exact H. Qed.

(** Zeros among numbers. *)
Lemma mul_zero_l (x y : F32.t) :
  F32.is_zero x = true -> F32.is_number y = true -> F32.is_zero (x * y)%f32 = true.
Proof.
  destruct x, y; simpl; intros Hx Hy; try discriminate; reflexivity.
Qed.

Lemma mul_zero_r (x y : F32.t) :
  F32.is_number x = true -> F32.is_zero y = true -> F32.is_zero (x * y)%f32 = true.
Proof. intros Hx Hy. rewrite mul_comm. apply mul_zero_l; assumption. Qed.

Lemma zero_is_number (x : F32.t) : F32.is_zero x = true -> F32.is_number x = true.
Proof. destruct x; simpl; intros H; try discriminate; reflexivity. Qed.

Lemma opp_is_number (x : F32.t) :
  F32.is_number x = true -> F32.is_number (- x)%f32 = true.
Proof. destruct x; simpl; intros H; try discriminate; try reflexivity; exact H. Qed.

Lemma sub_zero_number (x y : F32.t) :
  F32.is_zero x = true -> F32.is_number y = true ->
  F32.is_number (x - y)%f32 = true.
Proof.
  destruct x as [sx|sx| |sx mx ex], y as [sy|sy| |sy my ey]; simpl;
    intros Hx Hy; try discriminate.
  - destruct sx, sy; reflexivity.
  - exact Hy.
Qed.

Lemma add_zero_zero (x y : F32.t) :
  F32.is_zero x = true -> F32.is_zero y = true -> F32.is_zero (x + y)%f32 = true.
Proof.
  destruct x as [sx|sx| |sx mx ex], y as [sy|sy| |sy my ey]; simpl;
    intros Hx Hy; try discriminate.
  destruct sx, sy; reflexivity.
Qed.

Lemma add_zero_finite (x : F32.t) (s : bool) (m : positive) (e : Z) :
  F32.is_zero x = true -> (x + S754_finite s m e)%f32 = S754_finite s m e.
Proof. destruct x; simpl; intros Hx; try discriminate; reflexivity. Qed.

Lemma sub_one_zero (x : F32.t) : F32.is_zero x = true -> (f1 - x)%f32 = f1.
Proof. destruct x; simpl; intros Hx; try discriminate; reflexivity. Qed.

Lemma eqb_zero_zero (x y : F32.t) :
  F32.is_zero x = true -> F32.is_zero y = true -> (x == y)%f32 = true.
Proof. destruct x, y; simpl; intros Hx Hy; try discriminate; reflexivity. Qed.

(** ** Rounding yields numbers

    What the rounding of [SpecFloat] returns is a number of the format,
    in canonical form, as long as the magnitude of what is rounded stays
    under the largest exponent.  This is what makes the gains
    [(float) (n * 0.01)] numbers for every C integer [n]. *)

Lemma digits2_pos_bounds (p : positive) :
  2 ^ (Zpos (digits2_pos p) - 1) <= Zpos p < 2 ^ Zpos (digits2_pos p).
Proof.
  induction p as [p IH|p IH|]; cbn [digits2_pos].
  - rewrite Pos2Z.inj_succ.
    replace (Z.succ (Zpos (digits2_pos p)) - 1) with (Z.succ (Zpos (digits2_pos p) - 1)) by lia.
    rewrite !Z.pow_succ_r by lia. lia.
  - rewrite Pos2Z.inj_succ.
    replace (Z.succ (Zpos (digits2_pos p)) - 1) with (Z.succ (Zpos (digits2_pos p) - 1)) by lia.
    rewrite !Z.pow_succ_r by lia. lia.
  - cbn. lia.
Qed.

Lemma Zdigits2_unique (x k : Z) :
  0 < x -> 2 ^ (k - 1) <= x < 2 ^ k -> Zdigits2 x = k.
Proof.
  intros Hx [Hlo Hhi]. destruct x as [|p|p]; try lia. cbn [Zdigits2].
  pose proof (digits2_pos_bounds p) as [Hl Hh].
  assert (Hk : 0 < k).
  { destruct (Z.ltb_spec 0 k) as [|Hk]; [assumption|].
    destruct (Z.eq_dec k 0) as [->|Hne]; [cbn in Hhi; lia|].
    rewrite Z.pow_neg_r in Hhi by lia. lia. }
  destruct (Z.lt_trichotomy (Zpos (digits2_pos p)) k) as [H|[H|H]]; [|exact H|].
  - assert (2 ^ Zpos (digits2_pos p) <= 2 ^ (k - 1)) by (apply Z.pow_le_mono_r; lia). lia.
  - assert (2 ^ k <= 2 ^ (Zpos (digits2_pos p) - 1)) by (apply Z.pow_le_mono_r; lia). lia.
Qed.

Lemma shr_1_m (mrs : shr_record) :
  0 <= shr_m mrs -> shr_m (shr_1 mrs) = shr_m mrs / 2.
Proof.
  destruct mrs as [m r s]. cbn [shr_m]. intros Hm.
  destruct m as [|[p|p|]|p]; cbn [shr_1 shr_m]; try lia.
  - reflexivity.
  - rewrite (Pos2Z.inj_xI p). apply Z.div_unique with 1; lia.
  - rewrite (Pos2Z.inj_xO p). apply Z.div_unique with 0; lia.
  - reflexivity.
Qed.

Lemma iter_shr_1_m (n : positive) : forall mrs : shr_record,
  0 <= shr_m mrs ->
  shr_m (iter_pos shr_1 n mrs) = shr_m mrs / 2 ^ Zpos n.
Proof.
  induction n as [n IH|n IH|]; intros mrs Hm; cbn [iter_pos].
  - assert (H1 : 0 <= shr_m (shr_1 mrs))
      by (rewrite shr_1_m by assumption; apply Z.div_pos; lia).
    assert (H2 : 0 <= shr_m (iter_pos shr_1 n (shr_1 mrs)))
      by (rewrite IH by assumption; apply Z.div_pos; lia).
    rewrite IH, IH, shr_1_m by assumption.
    rewrite !Z.div_div by lia.
    rewrite (Pos2Z.inj_xI n).
    replace (2 * Zpos n + 1) with (1 + Zpos n + Zpos n) by lia.
    rewrite !Z.pow_add_r by lia. f_equal. change (2 ^ 1) with 2. lia.
  - assert (H2 : 0 <= shr_m (iter_pos shr_1 n mrs))
      by (rewrite IH by assumption; apply Z.div_pos; lia).
    rewrite IH, IH by assumption.
    rewrite !Z.div_div by lia.
    rewrite (Pos2Z.inj_xO n).
    replace (2 * Zpos n) with (Zpos n + Zpos n) by lia.
    rewrite !Z.pow_add_r by lia. reflexivity.
  - apply shr_1_m. exact Hm.
Qed.

Lemma shr_m_shr (m : Z) (l : location) (e n : Z) :
  0 <= m ->
  shr_m (fst (shr (shr_record_of_loc m l) e n)) = m / 2 ^ Z.max 0 n
  /\ snd (shr (shr_record_of_loc m l) e n) = e + Z.max 0 n.
Proof.
  intros Hm.
  assert (Hrec : shr_m (shr_record_of_loc m l) = m)
    by (destruct l as [|[]]; reflexivity).
  destruct n as [|p|p]; cbn [shr fst snd].
  - rewrite Hrec. cbn. rewrite Z.div_1_r. lia.
  - rewrite iter_shr_1_m by (rewrite Hrec; exact Hm).
    rewrite Hrec. replace (Z.max 0 (Zpos p)) with (Zpos p) by lia. lia.
  - rewrite Hrec. cbn. rewrite Z.div_1_r. lia.
Qed.

Lemma Zdigits2_nonneg (x : Z) : 0 <= Zdigits2 x.
Proof. destruct x; cbn; lia. Qed.

Lemma Zdigits2_bounds (x : Z) :
  0 < x -> 2 ^ (Zdigits2 x - 1) <= x < 2 ^ Zdigits2 x.
Proof.
  destruct x as [|p|p]; try lia. intros _. apply digits2_pos_bounds.
Qed.

(** Digits of a quotient by a power of two. *)
Lemma Zdigits2_div_pow2 (x n : Z) :
  0 < x -> 0 <= n ->
  (Zdigits2 x <= n /\ x / 2 ^ n = 0)
  \/ (n < Zdigits2 x /\ 0 < x / 2 ^ n
      /\ Zdigits2 (x / 2 ^ n) = Zdigits2 x - n).
Proof.
  intros Hx Hn. pose proof (Zdigits2_bounds x Hx) as [Hlo Hhi].
  assert (Hpn : 0 < 2 ^ n) by (apply Z.pow_pos_nonneg; lia).
  destruct (Z.le_gt_cases (Zdigits2 x) n) as [Hle | Hgt].
  - left. split; [exact Hle|]. apply Z.div_small.
    assert (2 ^ Zdigits2 x <= 2 ^ n) by (apply Z.pow_le_mono_r; lia). lia.
  - right. split; [exact Hgt|].
    assert (Hq : 2 ^ (Zdigits2 x - n - 1) <= x / 2 ^ n < 2 ^ (Zdigits2 x - n)).
    { split.
      - apply Z.div_le_lower_bound; [exact Hpn|].
        rewrite <- Z.pow_add_r by lia.
        replace (n + (Zdigits2 x - n - 1)) with (Zdigits2 x - 1) by lia.
        exact Hlo.
      - apply Z.div_lt_upper_bound; [exact Hpn|].
        rewrite <- Z.pow_add_r by lia.
        replace (n + (Zdigits2 x - n)) with (Zdigits2 x) by lia.
        exact Hhi. }
    assert (Hpos : 0 < x / 2 ^ n).
    { assert (0 < 2 ^ (Zdigits2 x - n - 1)) by (apply Z.pow_pos_nonneg; lia). lia. }
    split; [exact Hpos|].
    apply Zdigits2_unique; [exact Hpos|]. exact Hq.
Qed.

(** Digits of a successor. *)
Lemma Zdigits2_succ (x : Z) :
  0 <= x ->
  Zdigits2 (x + 1) = Zdigits2 x
  \/ (x + 1 = 2 ^ Zdigits2 x /\ Zdigits2 (x + 1) = Zdigits2 x + 1).
Proof.
  intros Hx. destruct (Z.eq_dec x 0) as [->|Hne]; [right; cbn; lia|].
  pose proof (Zdigits2_bounds x ltac:(lia)) as [Hlo Hhi].
  destruct (Z.eq_dec (x + 1) (2 ^ Zdigits2 x)) as [Heq | Hneq].
  - right. split; [exact Heq|].
    apply Zdigits2_unique; [lia|].
    replace (Zdigits2 x + 1 - 1) with (Zdigits2 x) by lia.
    rewrite Z.pow_add_r by (pose proof (Zdigits2_nonneg x); lia).
    lia.
  - left. apply Zdigits2_unique; [lia|]. lia.
Qed.

Lemma round_nearest_even_cases (m : Z) (l : location) :
  round_nearest_even m l = m \/ round_nearest_even m l = m + 1.
Proof.
  destruct l as [|[]]; cbn; auto. destruct (Z.even m); auto.
Qed.

Section Rounding.

Variables prec emax : Z.
Hypothesis Hprec : 0 < prec.
Hypothesis Hemax : prec < emax.

Lemma fexp_eq (x : Z) : fexp prec emax x = Z.max (x - prec) (3 - emax - prec).
Proof. reflexivity. Qed.

Lemma bounded_intro (m : positive) (e : Z) :
  fexp prec emax (Zpos (digits2_pos m) + e) = e -> e <= emax - prec ->
  bounded prec emax m e = true.
Proof.
  intros Hc He. unfold bounded, canonical_mantissa.
  apply andb_true_intro. split; [apply Z.eqb_eq; exact Hc | apply Z.leb_le; exact He].
Qed.

Lemma binary_round_aux_number (s : bool) (m e : Z) (l : location) (B : Z) :
  0 < m ->
  e <= fexp prec emax (Zdigits2 m + e) ->
  Zdigits2 m + e <= B -> 3 - emax - prec <= B -> B < emax ->
  number_below prec emax (B + 1) (binary_round_aux prec emax s m e l) = true.
Proof.
  intros Hm Hn HB HBlo HBhi.
  unfold binary_round_aux, shr_fexp.
  set (mag := Zdigits2 m + e) in *.
  set (E := fexp prec emax mag) in *.
  pose proof (fexp_eq mag) as HE. fold E in HE.
  destruct (shr_m_shr m l e (E - e) ltac:(lia)) as [Hm' He'].
  destruct (shr (shr_record_of_loc m l) e (E - e)) as [mrs' e'].
  cbn [fst snd] in Hm', He'.
  replace (e + Z.max 0 (E - e)) with E in He' by lia.
  replace (Z.max 0 (E - e)) with (E - e) in Hm' by lia.
  subst e'.
  set (m' := shr_m mrs') in *.
  assert (Hd' : (m' = 0 /\ mag <= E) \/ (0 < m' /\ Zdigits2 m' = mag - E)).
  { destruct (Zdigits2_div_pow2 m (E - e) Hm ltac:(lia))
      as [[Hle Hz] | [Hlt [Hpos Hdig]]].
    - left. rewrite Hm'. split; [exact Hz | unfold mag; lia].
    - right. rewrite Hm'. split; [exact Hpos | unfold mag; lia]. }
  set (m1 := round_nearest_even m' (loc_of_shr_record mrs')).
  assert (Hm1 : m1 = m' \/ m1 = m' + 1) by apply round_nearest_even_cases.
  assert (Hm'0 : 0 <= m') by lia.
  pose proof (Zdigits2_succ m' Hm'0) as Hsucc.
  set (d1 := Zdigits2 m1).
  assert (Hd1 : (m1 = 0 /\ d1 = 0)
                \/ (0 < m1 /\ 1 <= d1 /\ d1 <= Z.max (mag - E) 0 + 1 /\
                    (mag - E <= d1 \/ (mag <= E /\ d1 = 1)))).
  { unfold d1. destruct Hm1 as [-> | ->].
    - destruct Hd' as [[Hz _] | [Hpos Hdig]].
      + left. rewrite Hz. split; reflexivity.
      + right. pose proof (Zdigits2_bounds m' Hpos).
        assert (1 <= Zdigits2 m').
        { destruct m'; try lia. cbn. lia. }
        lia.
    - right. destruct Hd' as [[Hz Hle] | [Hpos Hdig]].
      + rewrite Hz. cbn. lia.
      + assert (1 <= Zdigits2 m') by (destruct m'; try lia; cbn; lia).
        lia. }
  pose proof (fexp_eq (d1 + E)) as HE2.
  destruct Hd1 as [[Hz Hdz] | (Hpos1 & Hd1lo & Hd1hi & Hd1c)].
  - (* rounded to zero *)
    destruct (shr_m_shr m1 loc_Exact E (fexp prec emax (d1 + E) - E) ltac:(lia))
      as [Hm'' _].
    destruct (shr (shr_record_of_loc m1 loc_Exact) E
                (fexp prec emax (d1 + E) - E)) as [mrs'' e''].
    cbn [fst] in Hm''. rewrite Hm'', Hz. rewrite Z.div_0_l; [reflexivity|].
    apply Z.pow_nonzero; lia.
  - set (n2 := fexp prec emax (d1 + E) - E) in *.
    assert (Hn2 : 0 <= n2 <= 1 /\ n2 < d1
                  /\ (n2 = 1 -> E = mag - prec)) by (unfold n2; lia).
    destruct Hn2 as (Hn2a & Hn2b & Hn2c).
    destruct (shr_m_shr m1 loc_Exact E n2 ltac:(lia)) as [Hm'' He''].
    destruct (shr (shr_record_of_loc m1 loc_Exact) E n2) as [mrs'' e''].
    cbn [fst snd] in Hm'', He''.
    replace (Z.max 0 n2) with n2 in Hm'', He'' by lia.
    destruct (Zdigits2_div_pow2 m1 n2 Hpos1 ltac:(lia))
      as [[Hle _] | (_ & Hpos2 & Hdig2)]; [fold d1 in Hle; lia|].
    fold d1 in Hdig2. rewrite <- Hm'' in Hpos2, Hdig2.
    destruct (shr_m mrs'') as [|m2|m2]; try lia.
    cbn [Zdigits2] in Hdig2.
    replace (e'' <=? emax - prec) with true
      by (symmetry; apply Z.leb_le; lia).
    cbn [number_below]. apply andb_true_intro. split.
    + apply bounded_intro; [|lia].
      rewrite Hdig2, He''.
      replace (d1 - n2 + (E + n2)) with (d1 + E) by lia. unfold n2. lia.
    + apply Z.leb_le. lia.
Qed.

Lemma digits2_pos_iter_xO (m d : positive) :
  digits2_pos (Pos.iter xO m d) = (digits2_pos m + d)%positive.
Proof.
  apply (Pos.iter_ind positive xO m
           (fun p x => digits2_pos x = (digits2_pos m + p)%positive)).
  - cbn [digits2_pos]. rewrite Pos.add_1_r. reflexivity.
  - intros p a IH. cbn [digits2_pos]. rewrite IH, Pos.add_succ_r. reflexivity.
Qed.

Lemma binary_round_number (s : bool) (m : positive) (e B : Z) :
  Zpos (digits2_pos m) + e <= B -> 3 - emax - prec <= B -> B < emax ->
  number_below prec emax (B + 1) (binary_round prec emax s m e) = true.
Proof.
  intros HB HBlo HBhi. unfold binary_round, shl_align.
  pose proof (fexp_eq (Zpos (digits2_pos m) + e)) as HE.
  destruct (fexp prec emax (Zpos (digits2_pos m) + e) - e) as [|d|d] eqn:Hd.
  - apply binary_round_aux_number; cbn [Zdigits2]; lia.
  - apply binary_round_aux_number; cbn [Zdigits2]; lia.
  - apply binary_round_aux_number; cbn [Zdigits2];
      rewrite ?digits2_pos_iter_xO, ?Pos2Z.inj_add; try lia.
    replace (Zpos (digits2_pos m) + Zpos d
             + fexp prec emax (Zpos (digits2_pos m) + e))
      with (Zpos (digits2_pos m) + e) by lia.
    lia.
Qed.

Lemma Zdigits2_mul_bounds (x y : positive) :
  Zpos (digits2_pos y) <= Zpos (digits2_pos (x * y))
  <= Zpos (digits2_pos x) + Zpos (digits2_pos y).
Proof.
  pose proof (digits2_pos_bounds x) as [Hxl Hxh].
  pose proof (digits2_pos_bounds y) as [Hyl Hyh].
  pose proof (digits2_pos_bounds (x * y)) as [Hpl Hph].
  rewrite Pos2Z.inj_mul in Hpl, Hph.
  split.
  - destruct (Z.le_gt_cases (Zpos (digits2_pos y))
                (Zpos (digits2_pos (x * y)))) as [H | H]; [exact H|].
    assert (2 ^ Zpos (digits2_pos (x * y)) <= 2 ^ (Zpos (digits2_pos y) - 1))
      by (apply Z.pow_le_mono_r; lia).
    nia.
  - destruct (Z.le_gt_cases (Zpos (digits2_pos (x * y)))
                (Zpos (digits2_pos x) + Zpos (digits2_pos y))) as [H | H];
      [exact H|].
    assert (2 ^ (Zpos (digits2_pos x) + Zpos (digits2_pos y))
            <= 2 ^ (Zpos (digits2_pos (x * y)) - 1))
      by (apply Z.pow_le_mono_r; lia).
    rewrite Z.pow_add_r in * by lia.
    nia.
Qed.

(** The product with a normal number. *)
Lemma mul_number (x : spec_float) (sy : bool) (my : positive) (ey B : Z) :
  number_below prec emax B x = true ->
  prec <= Zpos (digits2_pos my) ->
  3 - emax - prec <= B + Zpos (digits2_pos my) + ey ->
  B + Zpos (digits2_pos my) + ey < emax ->
  number_below prec emax (B + Zpos (digits2_pos my) + ey + 1)
    (SFmul prec emax x (S754_finite sy my ey)) = true.
Proof.
  intros Hx Hy HBlo HBhi.
  destruct x as [sx|sx| |sx mx ex]; try discriminate; [reflexivity|].
  cbn [number_below] in Hx. apply andb_prop in Hx. destruct Hx as [_ Hx].
  apply Z.leb_le in Hx.
  unfold SFmul.
  pose proof (Zdigits2_mul_bounds mx my) as [Hlo Hhi].
  pose proof (fexp_eq (Zpos (digits2_pos (mx * my)) + (ex + ey))) as HE.
  apply binary_round_aux_number; cbn [Zdigits2]; lia.
Qed.

End Rounding.

Lemma of_Z_number (n : Z) :
  - 2 ^ 63 <= n < 2 ^ 63 -> number_below 53 1024 65 (F64.of_Z n) = true.
Proof.
  intros Hn. unfold F64.of_Z, binary_normalize.
  assert (Hd : forall p : positive, Zpos p <= 2 ^ 63 -> Zpos (digits2_pos p) <= 64).
  { intros p Hp. pose proof (digits2_pos_bounds p) as [Hl _].
    destruct (Z.le_gt_cases (Zpos (digits2_pos p)) 64) as [H | H]; [exact H|].
    assert (2 ^ 64 <= 2 ^ (Zpos (digits2_pos p) - 1))
      by (apply Z.pow_le_mono_r; lia).
    lia. }
  destruct n as [|p|p]; [reflexivity| |].
  - pose proof (Hd p ltac:(lia)) as H64.
    apply (binary_round_number 53 1024 ltac:(lia) ltac:(lia) false p 0 64); lia.
  - pose proof (Hd p ltac:(lia)) as H64.
    apply (binary_round_number 53 1024 ltac:(lia) ltac:(lia) true p 0 64); lia.
Qed.

Lemma number_below_is_number32 (B : Z) (x : spec_float) :
  number_below 24 128 B x = true -> F32.is_number x = true.
Proof.
  destruct x; cbn; intros H; try discriminate; [reflexivity|].
  apply andb_prop in H. apply H.
Qed.

Lemma gain_is_number (n : Z) :
  c_integer n -> F32.is_number (gain n) = true.
Proof.
  intros Hn. unfold c_integer in Hn. unfold gain, percent, to_float, F32.round.
  pose proof (of_Z_number n Hn) as Hx.
  change (dec 1 100) with (S754_finite false 5764607523034235 (-59)).
  pose proof (mul_number 53 1024 ltac:(lia) ltac:(lia) (F64.of_Z n)
                false 5764607523034235 (-59) 65 Hx
                ltac:(cbn; lia) ltac:(cbn; lia) ltac:(cbn; lia)) as Hp.
  change (Zpos (digits2_pos 5764607523034235)) with 53 in Hp.
  change (65 + 53 + -59 + 1) with 60 in Hp.
  unfold F64.mul. change F64.prec with 53. change F64.emax with 1024.
  destruct (SFmul 53 1024 (F64.of_Z n) (S754_finite false 5764607523034235 (-59)))
    as [s|s| |s m e]; try discriminate; [reflexivity|].
  cbn [number_below] in Hp. apply andb_prop in Hp. destruct Hp as [_ Hp].
  apply Z.leb_le in Hp.
  apply (number_below_is_number32 61).
  apply (binary_round_number 24 128 ltac:(lia) ltac:(lia) s m e 60); lia.
Qed.

(** ** The path-tracking law *)

Lemma div_one_one : (f1 / f1)%f32 = f1.
Proof. vm_compute. reflexivity. Qed.

(** On the path and heading along it, the feedback terms vanish and the
    feed-forward term [k] is all that is left. *)
Lemma feedback_law_on_path (config : DriverConfig) (ye Sp k : F32.t) :
  F32.is_zero ye = true ->
  F32.is_zero Sp = true ->
  F32.is_number k = true ->
  F32.is_number (gain (steering_kpy config)) = true ->
  F32.is_number (gain (steering_kvy config)) = true ->
  (feedback_law config ye f1 Sp k == k)%f32 = true
  /\ (F32.is_zero k = false -> feedback_law config ye f1 Sp k = k).
Proof.
  intros Hye HSp Hk Hkpy Hkvy. unfold feedback_law.
  rewrite (sub_one_zero (k * ye)%f32) by (apply mul_zero_r; assumption).
  rewrite div_one_one.
  rewrite (mul_one_r ye) by (apply zero_is_number; exact Hye).
  rewrite (mul_one_r (- gain (steering_kpy config))%f32)
    by (apply opp_is_number; exact Hkpy).
  rewrite (mul_one_r (gain (steering_kvy config))) by exact Hkvy.
  assert (HA : F32.is_zero (ye * - gain (steering_kpy config))%f32 = true).
  { apply mul_zero_l; [exact Hye | apply opp_is_number; exact Hkpy]. }
  assert (HB : F32.is_zero
                 (Sp * (k * Sp - gain (steering_kvy config)))%f32 = true).
  { apply mul_zero_l; [exact HSp|].
    apply sub_zero_number; [|exact Hkvy].
    apply mul_zero_r; assumption. }
  pose proof (add_zero_zero _ _ HA HB) as HAB.
  destruct k as [sk|sk| |sk mk ek]; try discriminate.
  - split; [|intros Hz; discriminate].
    apply eqb_zero_zero; [|reflexivity].
    apply mul_zero_r; [reflexivity|].
    apply add_zero_zero; [exact HAB | reflexivity].
  - rewrite (add_zero_finite _ sk mk ek HAB).
    rewrite (mul_one_l (S754_finite sk mk ek) Hk).
    split; [apply eqb_number_refl; exact Hk | reflexivity].
Qed.

Section PathTracking.

Variable GetTarget : F32.t -> F32.t -> option TrackTarget.
Variable sin : F64.t -> F64.t.
Variable cos : F64.t -> F64.t.
Variable atan2 : F64.t -> F64.t -> F64.t.

(** C1.  Whenever the track store returns a target, the lateral error
    [ye] is 0 and the heading error is zero ([Cp = 1], [Sp = 0], as the C
    tests [==] see them), [TargetCurvature] returns the curvature [k] of
    the path: a value equal to [k], and [k] itself, bit for bit, unless
    [k] is a zero (then a zero is returned).  The curvature is a number
    (neither NaN nor infinite) and the config holds C integers. *)
Theorem TargetCurvature_on_path
    (config : DriverConfig) (st : State) (tg : TrackTarget) :
  GetTarget (x_ st) (y_ st) = Some tg ->
  (lateral_error st tg == f0)%f32 = true ->
  (heading_cos sin cos st tg == f1)%f32 = true ->
  (heading_sin sin cos st tg == f0)%f32 = true ->
  F32.is_number (t_k tg) = true ->
  c_integer (steering_kpy config) ->
  c_integer (steering_kvy config) ->
  (fst (TargetCurvature GetTarget sin cos atan2 config st) == t_k tg)%f32 = true
  /\ (F32.is_zero (t_k tg) = false ->
      fst (TargetCurvature GetTarget sin cos atan2 config st) = t_k tg).
Proof.
  intros Htg Hye HCp HSp Hk Hkpy Hkvy.
  unfold TargetCurvature. rewrite Htg. cbn [fst].
  rewrite (eqb_f1_eq _ HCp).
  apply feedback_law_on_path; try assumption.
  - apply eqb_f0_zero. exact Hye.
  - apply eqb_f0_zero. exact HSp.
  - apply gain_is_number. exact Hkpy.
  - apply gain_is_number. exact Hkvy.
Qed.

End PathTracking.

(** ** The dual-loop controller *)

Section DualLoop.

Variable GetTarget : F32.t -> F32.t -> option TrackTarget.
Variable sin : F64.t -> F64.t.
Variable cos : F64.t -> F64.t.
Variable atan2 : F64.t -> F64.t -> F64.t.

Local Notation TargetCurvature' := (TargetCurvature GetTarget sin cos atan2).
Local Notation GetControl' := (GetControl GetTarget sin cos atan2).
Local Notation selected_k' := (selected_k GetTarget sin cos atan2).
Local Notation target_speed' := (target_speed sin cos).
Local Notation speed_error' := (speed_error GetTarget sin cos atan2).
Local Notation yaw_error' := (yaw_error GetTarget sin cos atan2).

(** [TargetCurvature] writes the four path diagnostics and nothing
    else. *)
Lemma TargetCurvature_frame (config : DriverConfig) (st : State) :
  let st' := snd (TargetCurvature' config st) in
  x_ st' = x_ st /\ y_ st' = y_ st /\ theta_ st' = theta_ st
  /\ vf_ st' = vf_ st /\ vr_ st' = vr_ st /\ w_ st' = w_ st
  /\ ierr_v_ st' = ierr_v_ st /\ ierr_w_ st' = ierr_w_ st
  /\ delta_ st' = delta_ st
  /\ target_v_ st' = target_v_ st /\ target_w_ st' = target_w_ st
  /\ bw_w_ st' = bw_w_ st /\ bw_v_ st' = bw_v_ st.
Proof.
  unfold TargetCurvature.
  destruct (GetTarget (x_ st) (y_ st)); cbn; repeat split; reflexivity.
Qed.

Lemma vr_slip_target_frame (config : DriverConfig) (st : State) :
  vr_slip_target_of sin cos (snd (TargetCurvature' config st))
  = vr_slip_target_of sin cos st.
Proof.
  unfold vr_slip_target_of.
  destruct (TargetCurvature_frame config st)
    as (_ & _ & _ & Hvf & _ & Hw & _ & _ & Hd & _).
  cbv zeta in Hvf, Hw, Hd. rewrite Hvf, Hw, Hd. reflexivity.
Qed.

(** One active tick, read off the state before the call: the outputs,
    the two integrators and the four loop diagnostics. *)
Lemma GetControl_active
    (config : DriverConfig) (st : State) (throttle_in steering_in dt : F32.t)
    (autodrive : bool) (frameno : Z) :
  coasting autodrive throttle_in = false ->
  let k := selected_k' config st steering_in autodrive in
  let vmax := selected_vmax config throttle_in autodrive in
  let target_v := target_speed' config st k vmax in
  let target_w := (k * vr_ st)%f32 in
  let err_v := (vr_ st - target_v)%f32 in
  let err_w := (w_ st - target_w)%f32 in
  let BW_w := bandwidth (yaw_bw config) in
  let BW_v := bandwidth (motor_bw config) in
  let steering := steering_law BW_w (ierr_w_ st) err_w in
  let drive := drive_law BW_v (vr_ st) err_v (ierr_v_ st) in
  let throttle :=
    if (drive == f0)%f32 && (vr_ st > f0)%f32
    then brake_law BW_v (vr_ st) err_v (ierr_v_ st)
    else drive in
  let r := GetControl' config st throttle_in steering_in dt autodrive frameno in
  throttle_out r = throttle
  /\ steering_out r = steering
  /\ ierr_v_ (state r)
     = (if unsaturated throttle then (ierr_v_ st + dt * err_v)%f32 else ierr_v_ st)
  /\ ierr_w_ (state r)
     = (if yaw_accumulates steering err_w (ierr_w_ st)
        then (ierr_w_ st + dt * err_w)%f32 else ierr_w_ st)
  /\ target_v_ (state r) = target_v
  /\ target_w_ (state r) = target_w
  /\ bw_w_ (state r) = BW_w
  /\ bw_v_ (state r) = BW_v.
Proof.
  intros Hmode. cbv zeta.
  unfold GetControl, selected_k, selected_vmax, target_speed.
  pose proof (vr_slip_target_frame config st) as Hslip.
  destruct (TargetCurvature_frame config st)
    as (_ & _ & _ & _ & Hvr & Hw & Hiv & Hiw & _).
  cbv zeta in Hvr, Hw, Hiv, Hiw.
  destruct (TargetCurvature' config st) as [autok st'].
  cbn [fst snd] in *.
  rewrite Hmode, Hslip, Hvr, Hw, Hiv, Hiw.
  set (k := if autodrive then autok else manual_k steering_in).
  set (vmax := if autodrive then auto_vmax config
               else manual_vmax config throttle_in).
  destruct (over_kmin k (kmin_of config vmax));
    [destruct (use_slip (vr_slip_target_of sin cos st) (traction_v config k))|].
  all: cbv zeta; cbn [throttle_out steering_out state].
  all: match goal with
       | |- context [unsaturated ?t] => destruct (unsaturated t)
       end.
  all: cbn [ierr_w_ set_ierr_v]; rewrite ?Hiw.
  all: match goal with
       | |- context [yaw_accumulates ?a ?b ?c] => destruct (yaw_accumulates a b c)
       end.
  all: cbn [state set_loop_diag set_ierr_w set_ierr_v ierr_v_ ierr_w_
             target_v_ target_w_ bw_w_ bw_v_];
    rewrite ?Hiv, ?Hiw; repeat split; reflexivity.
Qed.

(** A coasting tick: the call returns at line 106. *)
Lemma GetControl_coasting
    (config : DriverConfig) (st : State) (throttle_in steering_in dt : F32.t)
    (autodrive : bool) (frameno : Z) :
  coasting autodrive throttle_in = true ->
  GetControl' config st throttle_in steering_in dt autodrive frameno
  = {| ret := true;
       throttle_out := throttle_in;
       steering_out := (- steering_in)%f32;
       state := set_ierr_v (set_ierr_w (snd (TargetCurvature' config st)) f0) f0;
       printed := [] |}.
Proof.
  intros Hmode. unfold GetControl.
  destruct (TargetCurvature' config st) as [autok st'].
  rewrite Hmode. reflexivity.
Qed.

(** C2.  In active mode, when [|k|] exceeds [kmin = tractionLimit * 0.01
    / vmax^2] the target speed is [sqrt (tractionLimit * 0.01 / |k|)],
    replaced by the slip target [(vf + w*Lf*sin delta) / cos delta]
    exactly when the slip target is strictly smaller than it and
    strictly greater than 1.0; when [|k| <= kmin] the target speed is
    [vmax].  The three formulas are written out with the arithmetic of
    the source: the threshold and the traction-limited speed in
    [double] and stored as [float], the slip target in [float]. *)
Theorem target_speed_traction_limited
    (config : DriverConfig) (st : State) (throttle_in steering_in dt : F32.t)
    (autodrive : bool) (frameno : Z) :
  coasting autodrive throttle_in = false ->
  let k := selected_k' config st steering_in autodrive in
  let vmax := selected_vmax config throttle_in autodrive in
  let limit := (F64.of_Z (traction_limit config) * dec 1 100)%f64 in
  let kmin := to_float (limit / to_double (vmax * vmax)%f32)%f64 in
  let limited := to_float (F64.sqrt (limit / F64.abs (to_double k))%f64) in
  let sin_delta := to_float (sin (to_double (delta_ st))) in
  let cos_delta := to_float (cos (to_double (delta_ st))) in
  let slip := ((vf_ st + w_ st * GEOM_LF * sin_delta) / cos_delta)%f32 in
  let r := GetControl' config st throttle_in steering_in dt autodrive frameno in
  ((F64.abs (to_double k) > to_double kmin)%f64 = true ->
   target_v_ (state r)
   = if (slip < limited)%f32 && (to_double slip > F64.of_Z 1)%f64
     then slip else limited)
  /\ ((F64.abs (to_double k) <= to_double kmin)%f64 = true ->
      target_v_ (state r) = vmax).
Proof.
  intros Hmode k vmax limit kmin limited sin_delta cos_delta slip r.
  destruct (GetControl_active config st throttle_in steering_in dt autodrive
              frameno Hmode) as (_ & _ & _ & _ & Htv & _).
  fold k vmax r in Htv. rewrite Htv.
  unfold target_speed, over_kmin, use_slip.
  change (kmin_of config vmax) with kmin.
  change (traction_v config k) with limited.
  change (vr_slip_target_of sin cos st) with slip.
  split; intros H.
  - rewrite H. reflexivity.
  - pose proof (leb_not_gtb _ _ H) as H'.
    unfold F32.gtb in H'. unfold F64.gtb. rewrite H'. reflexivity.
Qed.

(** C4.  Not autodriving and [throttleIn <= 0]: the throttle is passed
    through, the steering is passed through negated, both integrators
    are set to 0 whatever they held, and the two outputs depend on
    nothing but the two inputs. *)
Theorem coasting_passthrough
    (config : DriverConfig) (st : State) (throttle_in steering_in dt : F32.t)
    (frameno : Z) :
  (throttle_in <= f0)%f32 = true ->
  let r := GetControl' config st throttle_in steering_in dt false frameno in
  throttle_out r = throttle_in
  /\ steering_out r = (- steering_in)%f32
  /\ ierr_v_ (state r) = f0
  /\ ierr_w_ (state r) = f0
  /\ forall (config' : DriverConfig) (st' : State) (dt' : F32.t) (frameno' : Z),
       let r' := GetControl' config' st' throttle_in steering_in dt' false
                   frameno' in
       throttle_out r' = throttle_out r /\ steering_out r' = steering_out r.
Proof.
  intros Hle r.
  assert (Hmode : coasting false throttle_in = true)
    by (unfold coasting; rewrite Hle; reflexivity).
  unfold r. rewrite (GetControl_coasting _ _ _ _ _ _ _ Hmode).
  cbn. repeat split.
  all: rewrite (GetControl_coasting _ _ _ _ _ _ _ Hmode); reflexivity.
Qed.

(** The constants of the two clip ranges, in order. *)
Lemma leb_f0_fm1 (x : F32.t) : (f0 <= x)%f32 = true -> (fm1 <= x)%f32 = true.
Proof.
  destruct x as [s|s| |s m e]; simpl; intros H; try discriminate;
    try reflexivity; destruct s; try discriminate; reflexivity.
Qed.

Lemma leb_f0_f1 (x : F32.t) : (x <= f0)%f32 = true -> (x <= f1)%f32 = true.
Proof.
  destruct x as [s|s| |s m e]; simpl; intros H; try discriminate;
    try reflexivity; destruct s; try discriminate; reflexivity.
Qed.

Lemma opp_within_unit (x : F32.t) :
  (fm1 <= x)%f32 = true -> (x <= f1)%f32 = true ->
  (fm1 <= - x)%f32 = true /\ (- x <= f1)%f32 = true.
Proof.
  intros Hlo Hhi. unfold F32.leb, SFleb, F32.opp in *.
  change fm1 with (SFopp f1) in *. change f1 with (SFopp (SFopp f1)) at 2.
  rewrite !SFcompare_opp. split; assumption.
Qed.

(** The drive law yields NaN or a throttle in [0, 1]; the braking law
    NaN or a throttle in [-1, 0]; the steering law NaN or a steering in
    [-1, 1]. *)
Lemma clip_nan_or_between (x lo hi : F32.t) :
  F32.is_nan lo = false -> F32.is_nan hi = false ->
  (lo <= hi)%f32 = true ->
  F32.is_nan (clip x lo hi) = true
  \/ ((lo <= clip x lo hi)%f32 = true /\ (clip x lo hi <= hi)%f32 = true).
Proof.
  intros Hlo Hhi Hle.
  destruct (F32.is_nan x) eqn:Hx.
  - left. rewrite clip_nan; assumption.
  - right. apply clip_between; assumption.
Qed.

(** C5, as the code has it.  In active mode each output is the clipped
    value of a control law: the steering law clipped to [-1, 1], the
    drive law clipped to [0, 1] or, when that gives 0 with [vr > 0], the
    braking law clipped to [-1, 0].  An output is NaN exactly when the
    value its law computes before clipping is NaN, and lies in [-1, 1]
    otherwise.  When coasting, the outputs are the inputs passed
    through unclipped; they lie in [-1, 1] when [throttleIn >= -1] and
    [steeringIn] is in [-1, 1]. *)
Theorem outputs_bounded
    (config : DriverConfig) (st : State) (throttle_in steering_in dt : F32.t)
    (autodrive : bool) (frameno : Z) :
  let r := GetControl' config st throttle_in steering_in dt autodrive frameno in
  let err_v := speed_error' config st throttle_in steering_in autodrive in
  let err_w := yaw_error' config st steering_in autodrive in
  let BW_w := bandwidth (yaw_bw config) in
  let BW_v := bandwidth (motor_bw config) in
  let steering_value := (- BW_w * (ierr_w_ st + err_w / BW_SRV))%f32 in
  let drive_value :=
    (- (BW_v / (M_K1 - M_K2 * vr_ st)) * (err_v + M_K3 * ierr_v_ st)
     + M_OFFSET)%f32 in
  let brake_value :=
    (BW_v / (- M_K2 * vr_ st) * (err_v + M_K3 * ierr_v_ st - M_OFFSET))%f32 in
  let throttle_value :=
    if (clip drive_value f0 f1 == f0)%f32 && (vr_ st > f0)%f32
    then brake_value else drive_value in
  (coasting autodrive throttle_in = false ->
   F32.is_nan (throttle_out r) = F32.is_nan throttle_value
   /\ (F32.is_nan throttle_value = false ->
       (fm1 <= throttle_out r)%f32 = true /\ (throttle_out r <= f1)%f32 = true)
   /\ F32.is_nan (steering_out r) = F32.is_nan steering_value
   /\ (F32.is_nan steering_value = false ->
       (fm1 <= steering_out r)%f32 = true
       /\ (steering_out r <= f1)%f32 = true))
  /\ (coasting autodrive throttle_in = true ->
      throttle_out r = throttle_in
      /\ steering_out r = (- steering_in)%f32
      /\ ((fm1 <= throttle_in)%f32 = true ->
          (fm1 <= throttle_out r)%f32 = true
          /\ (throttle_out r <= f1)%f32 = true)
      /\ ((fm1 <= steering_in)%f32 = true -> (steering_in <= f1)%f32 = true ->
          (fm1 <= steering_out r)%f32 = true
          /\ (steering_out r <= f1)%f32 = true)).
Proof.
  intros r err_v err_w BW_w BW_v steering_value drive_value brake_value
    throttle_value.
  split; intros Hmode.
  - destruct (GetControl_active config st throttle_in steering_in dt autodrive
                frameno Hmode) as (Ht & Hs & _).
    fold r in Ht, Hs.
    fold (speed_error' config st throttle_in steering_in autodrive) in Ht.
    fold (yaw_error' config st steering_in autodrive) in Hs.
    fold err_v BW_v in Ht. fold err_w BW_w in Hs.
    change (drive_law BW_v (vr_ st) err_v (ierr_v_ st))
      with (clip drive_value f0 f1) in Ht.
    change (brake_law BW_v (vr_ st) err_v (ierr_v_ st))
      with (clip brake_value fm1 f0) in Ht.
    change (steering_law BW_w (ierr_w_ st) err_w)
      with (clip steering_value fm1 f1) in Hs.
    rewrite Ht, Hs. unfold throttle_value.
    split; [|split; [|split]].
    + destruct ((clip drive_value f0 f1 == f0)%f32 && (vr_ st > f0)%f32);
        apply clip_is_nan; reflexivity.
    + destruct ((clip drive_value f0 f1 == f0)%f32 && (vr_ st > f0)%f32);
        intros Hn.
      * destruct (clip_between brake_value fm1 f0 eq_refl eq_refl eq_refl Hn)
          as [Hlo Hhi].
        split; [exact Hlo | apply leb_f0_f1; exact Hhi].
      * destruct (clip_between drive_value f0 f1 eq_refl eq_refl eq_refl Hn)
          as [Hlo Hhi].
        split; [apply leb_f0_fm1; exact Hlo | exact Hhi].
    + apply clip_is_nan; reflexivity.
    + intros Hn. exact (clip_between steering_value fm1 f1 eq_refl eq_refl
                          eq_refl Hn).
  - unfold r. rewrite (GetControl_coasting _ _ _ _ _ _ _ Hmode).
    cbn [throttle_out steering_out].
    split; [reflexivity|]. split; [reflexivity|]. split.
    + intros Ht. split; [exact Ht|]. apply leb_f0_f1.
      unfold coasting in Hmode. apply andb_prop in Hmode. apply Hmode.
    + intros Hs1 Hs2. apply opp_within_unit; assumption.
Qed.

Lemma gtb_not_ltb (x y : F32.t) : (x > y)%f32 = true -> (x < y)%f32 = false.
Proof.
  unfold F32.gtb, F32.ltb, SFltb. rewrite (SFcompare_antisym x y).
  destruct (SFcompare x y) as [[]|]; intros H; try discriminate; reflexivity.
Qed.

Lemma ltb_not_gtb (x y : F32.t) : (x < y)%f32 = true -> (x > y)%f32 = false.
Proof.
  unfold F32.gtb, F32.ltb, SFltb. rewrite (SFcompare_antisym x y).
  destruct (SFcompare x y) as [[]|]; intros H; try discriminate; reflexivity.
Qed.

(** C6.  In active mode [ierr_v] is incremented by [dt * err_v] exactly
    when [throttleOut] is strictly inside (-1, 1), and is left as it was
    otherwise; in particular it is left as it was when [throttleOut] is
    saturated at 1. *)
Theorem velocity_integrator_antiwindup
    (config : DriverConfig) (st : State) (throttle_in steering_in dt : F32.t)
    (autodrive : bool) (frameno : Z) :
  coasting autodrive throttle_in = false ->
  let r := GetControl' config st throttle_in steering_in dt autodrive frameno in
  let err_v := speed_error' config st throttle_in steering_in autodrive in
  let inside := (throttle_out r > fm1)%f32 && (throttle_out r < f1)%f32 in
  (inside = true -> ierr_v_ (state r) = (ierr_v_ st + dt * err_v)%f32)
  /\ (inside = false -> ierr_v_ (state r) = ierr_v_ st)
  /\ ((throttle_out r == f1)%f32 = true -> ierr_v_ (state r) = ierr_v_ st).
Proof.
  intros Hmode r err_v inside.
  destruct (GetControl_active config st throttle_in steering_in dt autodrive
              frameno Hmode) as (Ht & _ & Hiv & _).
  fold r in Ht, Hiv. rewrite <- Ht in Hiv.
  change (unsaturated (throttle_out r)) with inside in Hiv.
  repeat split; intros H.
  - rewrite Hiv, H. reflexivity.
  - rewrite Hiv, H. reflexivity.
  - rewrite Hiv. unfold inside. rewrite (eqb_not_ltb _ _ H), andb_false_r.
    reflexivity.
Qed.

(** C7.  In active mode [ierr_w] is incremented by [dt * err_w] exactly
    when [steeringOut] is strictly inside (-1, 1), or [err_w > 0] and
    [ierr_w < 0], or [err_w < 0] and [ierr_w > 0], and is left as it was
    otherwise; so at saturation an error of the integrator's own sign
    does not move it. *)
Theorem yaw_integrator_antiwindup
    (config : DriverConfig) (st : State) (throttle_in steering_in dt : F32.t)
    (autodrive : bool) (frameno : Z) :
  coasting autodrive throttle_in = false ->
  let r := GetControl' config st throttle_in steering_in dt autodrive frameno in
  let err_w := yaw_error' config st steering_in autodrive in
  let inside := (steering_out r > fm1)%f32 && (steering_out r < f1)%f32 in
  let unwinding :=
    ((err_w > f0)%f32 && (ierr_w_ st < f0)%f32)
    || ((err_w < f0)%f32 && (ierr_w_ st > f0)%f32) in
  (inside || unwinding = true ->
   ierr_w_ (state r) = (ierr_w_ st + dt * err_w)%f32)
  /\ (inside || unwinding = false -> ierr_w_ (state r) = ierr_w_ st)
  /\ (inside = false ->
      ((err_w > f0)%f32 && (ierr_w_ st > f0)%f32)
      || ((err_w < f0)%f32 && (ierr_w_ st < f0)%f32) = true ->
      ierr_w_ (state r) = ierr_w_ st).
Proof.
  intros Hmode r err_w inside unwinding.
  destruct (GetControl_active config st throttle_in steering_in dt autodrive
              frameno Hmode) as (_ & Hs & _ & Hiw & _).
  fold r in Hs, Hiw. rewrite <- Hs in Hiw.
  assert (Hc : yaw_accumulates (steering_out r) err_w (ierr_w_ st)
               = inside || unwinding).
  { unfold yaw_accumulates, unwinding, inside, unsaturated.
    rewrite orb_assoc. reflexivity. }
  fold (yaw_error' config st steering_in autodrive) in Hiw.
  fold err_w in Hiw. rewrite Hc in Hiw.
  repeat split.
  - intros H. rewrite Hiw, H. reflexivity.
  - intros H. rewrite Hiw, H. reflexivity.
  - intros Hsat Hsame. rewrite Hiw, Hsat. unfold unwinding.
    apply orb_prop in Hsame. destruct Hsame as [H | H];
      apply andb_prop in H; destruct H as [He Hi].
    + rewrite (gtb_not_ltb _ _ Hi), (gtb_not_ltb _ _ He). rewrite andb_false_r.
      reflexivity.
    + rewrite (ltb_not_gtb _ _ Hi), (ltb_not_gtb _ _ He). rewrite andb_false_r.
      reflexivity.
Qed.

(** A value that is not negative is clipped to zero by the braking
    law. *)
Lemma clip_brake_zero (x : F32.t) :
  (f0 <= x)%f32 = true -> (clip x fm1 f0 == f0)%f32 = true.
Proof.
  destruct x as [s|s| |s m e]; try destruct s; intros H;
    try discriminate H; reflexivity.
Qed.

(** C8, as the code has it.  In active mode, when the drive law
    [clip(-Kp*(err_v + K3*ierr_v) + Moffset, 0, 1)] yields 0 and
    [vr > 0], the throttle is that of the braking law with gain
    [Kp2 = BWv / (-K2*vr)], clipped to [-1, 0]: it is NaN exactly when
    the braking law's value is, and otherwise lies in the closed range
    [-1, 0]; it is zero when the braking law's value is not
    negative. *)
Theorem braking_law_range
    (config : DriverConfig) (st : State) (throttle_in steering_in dt : F32.t)
    (autodrive : bool) (frameno : Z) :
  coasting autodrive throttle_in = false ->
  let r := GetControl' config st throttle_in steering_in dt autodrive frameno in
  let err_v := speed_error' config st throttle_in steering_in autodrive in
  let BW_v := bandwidth (motor_bw config) in
  let Kp := (BW_v / (M_K1 - M_K2 * vr_ st))%f32 in
  let Kp2 := (BW_v / (- M_K2 * vr_ st))%f32 in
  let brake_value := (Kp2 * (err_v + M_K3 * ierr_v_ st - M_OFFSET))%f32 in
  (clip (- Kp * (err_v + M_K3 * ierr_v_ st) + M_OFFSET) f0 f1 == f0)%f32 = true ->
  (vr_ st > f0)%f32 = true ->
  throttle_out r = clip brake_value fm1 f0
  /\ F32.is_nan (throttle_out r) = F32.is_nan brake_value
  /\ (F32.is_nan brake_value = false ->
      (fm1 <= throttle_out r)%f32 = true /\ (throttle_out r <= f0)%f32 = true)
  /\ ((f0 <= brake_value)%f32 = true -> (throttle_out r == f0)%f32 = true).
Proof.
  intros Hmode r err_v BW_v Kp Kp2 brake_value Hdrive Hvr.
  destruct (GetControl_active config st throttle_in steering_in dt autodrive
              frameno Hmode) as (Ht & _).
  fold r in Ht.
  fold (speed_error' config st throttle_in steering_in autodrive) in Ht.
  fold err_v BW_v in Ht.
  change (drive_law BW_v (vr_ st) err_v (ierr_v_ st))
    with (clip (- Kp * (err_v + M_K3 * ierr_v_ st) + M_OFFSET)%f32 f0 f1) in Ht.
  rewrite Hdrive, Hvr in Ht. cbn [andb] in Ht.
  change (brake_law BW_v (vr_ st) err_v (ierr_v_ st))
    with (clip brake_value fm1 f0) in Ht.
  split; [exact Ht|]. rewrite Ht. split; [|split].
  - apply clip_is_nan; reflexivity.
  - intros Hn. exact (clip_between brake_value fm1 f0 eq_refl eq_refl eq_refl Hn).
  - apply clip_brake_zero.
Qed.

(** C9.  When the track store reports no target at the current
    position, [TargetCurvature] returns 2 (and leaves the state as it
    was); under autodrive the selected curvature is then 2 and the target
    yaw rate [GetControl] computes is [2 * vr], whatever the config and
    the inputs. *)
Theorem no_target_fallback (config : DriverConfig) (st : State) :
  GetTarget (x_ st) (y_ st) = None ->
  TargetCurvature' config st = (f2, st)
  /\ forall (throttle_in steering_in dt : F32.t) (frameno : Z),
       let r := GetControl' config st throttle_in steering_in dt true frameno in
       selected_k' config st steering_in true = f2
       /\ target_w_ (state r) = (f2 * vr_ st)%f32.
Proof.
  intros Hnone.
  assert (HTC : TargetCurvature' config st = (f2, st))
    by (unfold TargetCurvature; rewrite Hnone; reflexivity).
  split; [exact HTC|]. intros throttle_in steering_in dt frameno r.
  assert (Hk : selected_k' config st steering_in true = f2)
    by (unfold selected_k; rewrite HTC; reflexivity).
  split; [exact Hk|].
  destruct (GetControl_active config st throttle_in steering_in dt true
              frameno eq_refl) as (_ & _ & _ & _ & _ & Htw & _).
  fold r in Htw. rewrite Htw, Hk. reflexivity.
Qed.

(** C10, as the code has it.  A call of [GetControl] overwrites [ye],
    [psie], [k] and [target_k] with the values of this tick when the
    track store returns a target and leaves the four as they were when it
    returns none; it overwrites [target_v], [target_w], [bw_w] and [bw_v]
    with the values of this tick in active mode and leaves the four as
    they were when coasting. *)
Theorem diagnostics_update
    (config : DriverConfig) (st : State) (throttle_in steering_in dt : F32.t)
    (autodrive : bool) (frameno : Z) :
  let r := GetControl' config st throttle_in steering_in dt autodrive frameno in
  let k := selected_k' config st steering_in autodrive in
  let vmax := selected_vmax config throttle_in autodrive in
  (forall tg : TrackTarget,
     GetTarget (x_ st) (y_ st) = Some tg ->
     let ye := lateral_error st tg in
     let Cp := heading_cos sin cos st tg in
     let Sp := heading_sin sin cos st tg in
     ye_ (state r) = ye
     /\ psie_ (state r) = to_float (atan2 (to_double Sp) (to_double Cp))
     /\ k_ (state r) = t_k tg
     /\ target_k_ (state r) = feedback_law config ye Cp Sp (t_k tg))
  /\ (GetTarget (x_ st) (y_ st) = None ->
      ye_ (state r) = ye_ st /\ psie_ (state r) = psie_ st
      /\ k_ (state r) = k_ st /\ target_k_ (state r) = target_k_ st)
  /\ (coasting autodrive throttle_in = false ->
      target_v_ (state r) = target_speed' config st k vmax
      /\ target_w_ (state r) = (k * vr_ st)%f32
      /\ bw_w_ (state r) = bandwidth (yaw_bw config)
      /\ bw_v_ (state r) = bandwidth (motor_bw config))
  /\ (coasting autodrive throttle_in = true ->
      target_v_ (state r) = target_v_ st /\ target_w_ (state r) = target_w_ st
      /\ bw_w_ (state r) = bw_w_ st /\ bw_v_ (state r) = bw_v_ st).
Proof.
  intros r k vmax.
  assert (Hpath : ye_ (state r) = ye_ (snd (TargetCurvature' config st))
                  /\ psie_ (state r) = psie_ (snd (TargetCurvature' config st))
                  /\ k_ (state r) = k_ (snd (TargetCurvature' config st))
                  /\ target_k_ (state r)
                     = target_k_ (snd (TargetCurvature' config st))).
  { unfold r, GetControl.
    destruct (TargetCurvature' config st) as [autok st'].
    destruct (coasting autodrive throttle_in); [cbn; repeat split; reflexivity|].
    repeat match goal with
           | |- context [if ?c then _ else _] => destruct c
           end; cbn; repeat split; reflexivity. }
  destruct Hpath as (Hye & Hpsie & Hk & Htk).
  rewrite Hye, Hpsie, Hk, Htk.
  split; [|split; [|split]].
  - intros tg Htg. unfold TargetCurvature. rewrite Htg. cbn.
    repeat split; reflexivity.
  - intros Hnone. unfold TargetCurvature. rewrite Hnone. cbn.
    repeat split; reflexivity.
  - intros Hmode.
    destruct (GetControl_active config st throttle_in steering_in dt autodrive
                frameno Hmode) as (_ & _ & _ & _ & Htv & Htw & Hbw & Hbv).
    repeat split; assumption.
  - intros Hmode. unfold r. rewrite (GetControl_coasting _ _ _ _ _ _ _ Hmode).
    cbn [state set_ierr_v set_ierr_w target_v_ target_w_ bw_w_ bw_v_].
    destruct (TargetCurvature_frame config st)
      as (_ & _ & _ & _ & _ & _ & _ & _ & _ & Htv & Htw & Hbw & Hbv).
    repeat split; assumption.
Qed.

End DualLoop.

(** ** The state serializer *)

Lemma float_bytes_length (x : F32.t) : length (float_bytes x) = 4%nat.
Proof. reflexivity. Qed.

(** The seventeen members in the order of the record. *)
Lemma Serialize_fills (st : State) (buf : list byte) (buflen : Z) :
  68 <= buflen ->
  (68 <= length buf)%nat ->
  Serialize st buf buflen
  = Some (concat (map float_bytes
                    [x_ st; y_ st; theta_ st; vf_ st; vr_ st; w_ st;
                     ierr_v_ st; ierr_w_ st; delta_ st;
                     target_k_ st; target_v_ st; target_w_ st;
                     ye_ st; psie_ st; k_ st; bw_w_ st; bw_v_ st])
          ++ skipn 68 buf, 68).
Proof.
  intros Hlen Hbuf. unfold Serialize.
  replace (buflen <? 68) with false by (symmetry; apply Z.ltb_ge; lia).
  do 68 (destruct buf as [|? buf]; [simpl length in Hbuf; lia|]).
  cbv [float_bytes sizeof_float le_split].
  cbn [memcpy overwrite firstn map concat app skipn].
  reflexivity.
Qed.

(** C3.  [SerializedSize] is 68.  [Serialize] fails its assertion when
    the capacity is under 68; otherwise it returns 68 and the buffer
    starts with the seventeen members, four bytes each, back to back at
    offsets 0, 4, ..., 64 in the order x, y, theta, vf, vr, w, ierr_v,
    ierr_w, delta, target_k, target_v, target_w, ye, psie, k, bw_w,
    bw_v, the bytes from offset 68 on being left as they were. *)
Theorem Serialize_layout (st : State) (buf : list byte) (buflen : Z) :
  SerializedSize = 68
  /\ (buflen < 68 -> Serialize st buf buflen = None)
  /\ (68 <= buflen -> (68 <= length buf)%nat ->
      exists buf' : list byte,
        Serialize st buf buflen = Some (buf', 68)
        /\ length buf' = length buf
        /\ skipn 68 buf' = skipn 68 buf
        /\ forall (i : nat) (x : F32.t),
             nth_error
               [x_ st; y_ st; theta_ st; vf_ st; vr_ st; w_ st;
                ierr_v_ st; ierr_w_ st; delta_ st;
                target_k_ st; target_v_ st; target_w_ st;
                ye_ st; psie_ st; k_ st; bw_w_ st; bw_v_ st] i = Some x ->
             firstn 4 (skipn (4 * i) buf') = float_bytes x).
Proof.
  split; [reflexivity|]. split.
  - intros Hlt. unfold Serialize.
    replace (buflen <? 68) with true by (symmetry; apply Z.ltb_lt; lia).
    reflexivity.
  - intros Hlen Hbuf. eexists. split; [apply Serialize_fills; assumption|].
    split; [|split].
    + rewrite length_app, length_skipn.
      cbv [float_bytes sizeof_float le_split].
      cbn [map concat app length]. lia.
    + do 68 (destruct buf as [|? buf]; [simpl length in Hbuf; lia|]).
      reflexivity.
    + intros i x Hi.
      do 17 (destruct i as [|i];
             [injection Hi as <-; reflexivity|]).
      destruct i; discriminate.
Qed.

(** ** Saturation *)

(** X1.  [clip] with bounds that are no NaN and in order, [lo <= hi]:
    the result is NaN exactly when [x] is, and otherwise lies between
    the bounds, both included. *)
Theorem clip_result (x lo hi : F32.t) :
  F32.is_nan lo = false -> F32.is_nan hi = false -> (lo <= hi)%f32 = true ->
  F32.is_nan (clip x lo hi) = F32.is_nan x
  /\ (F32.is_nan x = false ->
      (lo <= clip x lo hi)%f32 = true /\ (clip x lo hi <= hi)%f32 = true).
Proof.
  intros Hlo Hhi Hle. split.
  - apply clip_is_nan; assumption.
  - intros Hx. apply clip_between; assumption.
Qed.

Lemma leb_not_ltb (x y : F32.t) : (x <= y)%f32 = true -> (y < x)%f32 = false.
Proof. exact (leb_not_gtb x y). Qed.

(** X2.  With such bounds [clip] is idempotent, and a value already
    between the bounds is returned as it is. *)
Theorem clip_idempotent (x lo hi : F32.t) :
  F32.is_nan lo = false -> F32.is_nan hi = false -> (lo <= hi)%f32 = true ->
  clip (clip x lo hi) lo hi = clip x lo hi
  /\ ((lo <= x)%f32 = true -> (x <= hi)%f32 = true -> clip x lo hi = x).
Proof.
  intros Hlo Hhi Hle.
  assert (Hfix : forall y, (lo <= y)%f32 = true -> (y <= hi)%f32 = true ->
                           clip y lo hi = y).
  { intros y H1 H2. unfold clip.
    rewrite (leb_not_ltb _ _ H1), (leb_not_gtb _ _ H2). reflexivity. }
  split; [|apply Hfix].
  destruct (F32.is_nan x) eqn:Hx.
  - rewrite (clip_nan x lo hi Hx). apply clip_nan. exact Hx.
  - destruct (clip_between x lo hi Hlo Hhi Hle Hx) as [H1 H2].
    apply Hfix; assumption.
Qed.

(** ** Steering by hand, left and right *)

Section Mirror.

Variables prec emax : Z.

(** Rounding to nearest-even does not look at the sign. *)
Lemma binary_round_aux_opp (s : bool) (m e : Z) (l : location) :
  SFopp (binary_round_aux prec emax s m e l)
  = binary_round_aux prec emax (negb s) m e l.
Proof.
  unfold binary_round_aux.
  destruct (shr_fexp prec emax m e l) as [mrs' e'].
  destruct (shr_fexp prec emax _ e' loc_Exact) as [mrs'' e''].
  destruct (shr_m mrs''); try reflexivity.
  destruct (e'' <=? emax - prec); reflexivity.
Qed.

Lemma binary_round_opp (s : bool) (m : positive) (e : Z) :
  SFopp (binary_round prec emax s m e) = binary_round prec emax (negb s) m e.
Proof.
  unfold binary_round.
  destruct (shl_align m e (fexp prec emax (Zpos (digits2_pos m) + e)))
    as [mz ez].
  apply binary_round_aux_opp.
Qed.

Lemma SFmul_opp_l (x y : spec_float) :
  SFmul prec emax (SFopp x) y = SFopp (SFmul prec emax x y).
Proof.
  destruct x as [sx|sx| |sx mx ex], y as [sy|sy| |sy my ey];
    cbn [SFmul SFopp]; try reflexivity;
    try (destruct sx, sy; reflexivity).
  rewrite binary_round_aux_opp. destruct sx, sy; reflexivity.
Qed.

End Mirror.

Lemma to_double_opp (x : F32.t) : to_double (- x)%f32 = (- to_double x)%f64.
Proof.
  destruct x as [s|s| |s m e]; try reflexivity.
  symmetry. apply binary_round_opp.
Qed.

Lemma to_float_opp (x : F64.t) : to_float (- x)%f64 = (- to_float x)%f32.
Proof.
  destruct x as [s|s| |s m e]; try reflexivity.
  symmetry. apply binary_round_opp.
Qed.

Lemma abs_opp (x : F64.t) : F64.abs (- x)%f64 = F64.abs x.
Proof. destruct x; reflexivity. Qed.

(** X3.  The curvature asked for by hand (line 111) is an odd function
    of the steering input: the opposite input gives the opposite
    curvature, bit for bit, NaN and the zeros included. *)
Theorem manual_k_odd (steering_in : F32.t) :
  manual_k (- steering_in)%f32 = (- manual_k steering_in)%f32.
Proof.
  unfold manual_k.
  rewrite (to_double_opp steering_in), abs_opp.
  rewrite <- to_float_opp. f_equal.
  unfold F64.mul. rewrite <- SFmul_opp_l. f_equal.
  rewrite <- to_double_opp. f_equal.
  unfold F32.mul. rewrite <- SFmul_opp_l. reflexivity.
Qed.

(** ** One tick and the next *)

Section Ticks.

Variable GetTarget : F32.t -> F32.t -> option TrackTarget.
Variable sin : F64.t -> F64.t.
Variable cos : F64.t -> F64.t.
Variable atan2 : F64.t -> F64.t -> F64.t.

Local Notation TargetCurvature' := (TargetCurvature GetTarget sin cos atan2).
Local Notation GetControl' := (GetControl GetTarget sin cos atan2).

(** What a tick prints. *)
Lemma GetControl_printed
    (config : DriverConfig) (st : State) (throttle_in steering_in dt : F32.t)
    (autodrive : bool) (frameno : Z) :
  let k := selected_k GetTarget sin cos atan2 config st steering_in autodrive in
  let vmax := selected_vmax config throttle_in autodrive in
  let slip := vr_slip_target_of sin cos st in
  printed (GetControl' config st throttle_in steering_in dt autodrive frameno)
  = if negb (coasting autodrive throttle_in)
       && over_kmin k (kmin_of config vmax)
       && use_slip slip (traction_v config k)
    then [mkSlipEvent frameno slip (vf_ st) (vr_ st)]
    else [].
Proof.
  cbv zeta. unfold GetControl, selected_k, selected_vmax.
  pose proof (vr_slip_target_frame GetTarget sin cos atan2 config st) as Hslip.
  destruct (TargetCurvature_frame GetTarget sin cos atan2 config st)
    as (_ & _ & _ & Hvf & Hvr & _).
  cbv zeta in Hvf, Hvr.
  destruct (TargetCurvature' config st) as [autok st'].
  cbn [fst snd] in *.
  destruct (coasting autodrive throttle_in); [reflexivity|].
  rewrite Hslip, Hvf, Hvr. cbn [negb andb].
  destruct (over_kmin _ _); [|reflexivity].
  destruct (use_slip _ _); reflexivity.
Qed.

Lemma GetControl_frame
    (config : DriverConfig) (st : State) (throttle_in steering_in dt : F32.t)
    (autodrive : bool) (frameno : Z) :
  let st' := state (GetControl' config st throttle_in steering_in dt autodrive
                      frameno) in
  x_ st' = x_ st /\ y_ st' = y_ st /\ theta_ st' = theta_ st
  /\ vf_ st' = vf_ st /\ vr_ st' = vr_ st /\ w_ st' = w_ st
  /\ delta_ st' = delta_ st.
Proof.
  cbv zeta. unfold GetControl.
  destruct (TargetCurvature_frame GetTarget sin cos atan2 config st)
    as (Hx & Hy & Ht & Hvf & Hvr & Hw & _ & _ & Hd & _).
  cbv zeta in Hx, Hy, Ht, Hvf, Hvr, Hw, Hd.
  destruct (TargetCurvature' config st) as [autok st1].
  cbn [fst snd] in *.
  destruct (coasting autodrive throttle_in).
  - cbn. auto 10.
  - repeat match goal with
           | |- context [if ?c then _ else _] => destruct c
           end; cbn; auto 10.
Qed.


Lemma ltb_nan_l (x y : F32.t) : F32.is_nan x = true -> (x < y)%f32 = false.
Proof.
  intros H. unfold F32.ltb, SFltb. rewrite (SFcompare_nan_l x y H). reflexivity.
Qed.

(** The second call of [TargetCurvature]. *)
Lemma TargetCurvature_again (config : DriverConfig) (st : State) :
  TargetCurvature' config (snd (TargetCurvature' config st))
  = TargetCurvature' config st.
Proof.
  unfold TargetCurvature.
  destruct st as [x y th vf vr w iv iw d tk tv tw ye ps k bw bv]. cbn [x_ y_].
  destruct (GetTarget x y) eqn:E; cbn [snd set_path_diag x_ y_]; rewrite E;
    reflexivity.
Qed.

Lemma TargetCurvature_integrators (config : DriverConfig) (st : State) (a b : F32.t) :
  TargetCurvature' config (set_ierr_v (set_ierr_w st a) b)
  = (fst (TargetCurvature' config st),
     set_ierr_v (set_ierr_w (snd (TargetCurvature' config st)) a) b).
Proof.
  unfold TargetCurvature.
  destruct st as [x y th vf vr w iv iw d tk tv tw ye ps k bw bv].
  cbn [x_ y_ set_ierr_v set_ierr_w].
  destruct (GetTarget x y) eqn:E; reflexivity.
Qed.

(** X4.  [TargetCurvature] writes the four path diagnostics only: the
    nine members the controller reads and the four loop diagnostics are
    kept, and a second call returns the same curvature and leaves the
    same state as the first. *)
Theorem TargetCurvature_repeatable (config : DriverConfig) (st : State) :
  let st' := snd (TargetCurvature' config st) in
  control_members st' = control_members st
  /\ target_v_ st' = target_v_ st /\ target_w_ st' = target_w_ st
  /\ bw_w_ st' = bw_w_ st /\ bw_v_ st' = bw_v_ st
  /\ TargetCurvature' config st' = TargetCurvature' config st.
Proof.
  cbv zeta. split; [|split; [|split; [|split; [|split]]]].
  6: apply TargetCurvature_again.
  all: unfold TargetCurvature; destruct (GetTarget (x_ st) (y_ st)); reflexivity.
Qed.

(** X5.  After a coasting tick a second coasting tick, whatever its
    inputs, leaves the state as the first one left it. *)
Theorem coasting_tick_idempotent
    (config : DriverConfig) (st : State)
    (throttle_in steering_in dt throttle_in' steering_in' dt' : F32.t)
    (autodrive autodrive' : bool) (frameno frameno' : Z) :
  coasting autodrive throttle_in = true ->
  coasting autodrive' throttle_in' = true ->
  let st1 := state (GetControl' config st throttle_in steering_in dt autodrive
                      frameno) in
  state (GetControl' config st1 throttle_in' steering_in' dt' autodrive' frameno')
  = st1.
Proof.
  intros H1 H2. cbv zeta.
  rewrite (GetControl_coasting GetTarget sin cos atan2 config st _ _ _ _ _ H1).
  cbn [state].
  rewrite (GetControl_coasting GetTarget sin cos atan2 config _ _ _ _ _ _ H2).
  cbn [state]. rewrite TargetCurvature_integrators. cbn [snd].
  rewrite TargetCurvature_again.
  destruct (snd (TargetCurvature' config st)). reflexivity.
Qed.

(** X6.  Under autodrive the throttle and the steering input are not
    looked at: any two pairs of inputs give the same outputs, state and
    message. *)
Theorem autodrive_ignores_inputs
    (config : DriverConfig) (st : State)
    (throttle_in steering_in throttle_in' steering_in' dt : F32.t)
    (frameno : Z) :
  GetControl' config st throttle_in steering_in dt true frameno
  = GetControl' config st throttle_in' steering_in' dt true frameno.
Proof.
  unfold GetControl. destruct (TargetCurvature' config st) as [autok st'].
  reflexivity.
Qed.

(** The drive law gives no negative throttle. *)
Lemma drive_law_not_negative (BW_v vr err_v ierr_v : F32.t) :
  (drive_law BW_v vr err_v ierr_v < f0)%f32 = false.
Proof.
  unfold drive_law.
  match goal with
  | |- (clip ?x f0 f1 < f0)%f32 = false =>
    destruct (clip_nan_or_between x f0 f1 eq_refl eq_refl eq_refl)
      as [Hn | [Hlo _]]
  end.
  - exact (ltb_nan_l _ _ Hn).
  - exact (leb_not_gtb _ _ Hlo).
Qed.

(** X7.  Outside the coasting branch the throttle is negative only when
    the rear speed estimate is positive: the controller never brakes a
    car it believes at rest or rolling backwards. *)
Theorem brakes_only_when_moving
    (config : DriverConfig) (st : State) (throttle_in steering_in dt : F32.t)
    (autodrive : bool) (frameno : Z) :
  coasting autodrive throttle_in = false ->
  let r := GetControl' config st throttle_in steering_in dt autodrive frameno in
  (throttle_out r < f0)%f32 = true ->
  (vr_ st > f0)%f32 = true.
Proof.
  intros Hmode r Hneg.
  destruct (GetControl_active GetTarget sin cos atan2 config st throttle_in
              steering_in dt autodrive frameno Hmode) as (Ht & _).
  fold r in Ht. destruct (vr_ st > f0)%f32 eqn:Hvr; [reflexivity|].
  rewrite andb_false_r in Ht. rewrite Ht in Hneg.
  rewrite drive_law_not_negative in Hneg. discriminate Hneg.
Qed.

(** X8.  The message of line 129 is printed exactly when the slip
    target, [(vf + w*Lf*sin delta) / cos delta] computed in [float], is
    chosen as target speed (active mode, curvature over [kmin], slip
    target under the traction speed and over 1); it carries the frame
    number, the target speed stored by the call and the two speed
    estimates.  In every other case nothing is printed. *)
Theorem slip_message
    (config : DriverConfig) (st : State) (throttle_in steering_in dt : F32.t)
    (autodrive : bool) (frameno : Z) :
  let r := GetControl' config st throttle_in steering_in dt autodrive frameno in
  let k := selected_k GetTarget sin cos atan2 config st steering_in autodrive in
  let vmax := selected_vmax config throttle_in autodrive in
  let sin_delta := to_float (sin (to_double (delta_ st))) in
  let cos_delta := to_float (cos (to_double (delta_ st))) in
  let slip := ((vf_ st + w_ st * GEOM_LF * sin_delta) / cos_delta)%f32 in
  let chosen :=
    negb (coasting autodrive throttle_in)
    && over_kmin k (kmin_of config vmax)
    && use_slip slip (traction_v config k) in
  (chosen = true ->
   printed r = [mkSlipEvent frameno (target_v_ (state r)) (vf_ st) (vr_ st)]
   /\ target_v_ (state r) = slip)
  /\ (chosen = false -> printed r = []).
Proof.
  intros r k vmax sin_delta cos_delta slip chosen.
  pose proof (GetControl_printed config st throttle_in steering_in dt autodrive
                frameno) as Hp.
  cbv zeta in Hp.
  change (vr_slip_target_of sin cos st) with slip in Hp.
  fold r k vmax chosen in Hp.
  split; intros Hc; rewrite Hc in Hp; [|exact Hp].
  unfold chosen in Hc. apply andb_prop in Hc. destruct Hc as [Hc Hu].
  apply andb_prop in Hc. destruct Hc as [Hm Ho].
  apply negb_true_iff in Hm.
  destruct (GetControl_active GetTarget sin cos atan2 config st throttle_in
              steering_in dt autodrive frameno Hm)
    as (_ & _ & _ & _ & Htv & _).
  fold r k vmax in Htv. unfold target_speed in Htv.
  change (vr_slip_target_of sin cos st) with slip in Htv.
  rewrite Ho, Hu in Htv. rewrite Htv. split; [exact Hp | reflexivity].
Qed.

End Ticks.

(** X9.  Driving by hand, the track is used for the path diagnostics
    only: with any other track store (and any other [atan2]) the
    outputs, the nine members the controller reads, the stored target
    speed and yaw rate and the message are the same. *)
Theorem manual_control_ignores_track
    (GetTarget GetTarget' : F32.t -> F32.t -> option TrackTarget)
    (sin cos : F64.t -> F64.t) (atan2 atan2' : F64.t -> F64.t -> F64.t)
    (config : DriverConfig) (st : State) (throttle_in steering_in dt : F32.t)
    (frameno : Z) :
  let r := GetControl GetTarget sin cos atan2 config st throttle_in steering_in
             dt false frameno in
  let r' := GetControl GetTarget' sin cos atan2' config st throttle_in
              steering_in dt false frameno in
  throttle_out r = throttle_out r' /\ steering_out r = steering_out r'
  /\ control_members (state r) = control_members (state r')
  /\ target_v_ (state r) = target_v_ (state r')
  /\ target_w_ (state r) = target_w_ (state r')
  /\ printed r = printed r'.
Proof.
  intros r r'.
  pose proof (GetControl_frame GetTarget sin cos atan2 config st throttle_in
                steering_in dt false frameno) as F.
  pose proof (GetControl_frame GetTarget' sin cos atan2' config st throttle_in
                steering_in dt false frameno) as F'.
  pose proof (GetControl_printed GetTarget sin cos atan2 config st throttle_in
                steering_in dt false frameno) as P.
  pose proof (GetControl_printed GetTarget' sin cos atan2' config st throttle_in
                steering_in dt false frameno) as P'.
  cbv zeta in F, F', P, P'. fold r in F, P. fold r' in F', P'.
  destruct F as (Fx & Fy & Ft & Fvf & Fvr & Fw & Fd).
  destruct F' as (Fx' & Fy' & Ft' & Fvf' & Fvr' & Fw' & Fd').
  assert (Hpr : printed r = printed r') by (rewrite P, P'; reflexivity).
  destruct (coasting false throttle_in) eqn:Hmode.
  - unfold r, r' in *.
    rewrite (GetControl_coasting _ _ _ _ config st _ _ _ _ _ Hmode) in *.
    rewrite (GetControl_coasting GetTarget' _ _ _ config st _ _ _ _ _ Hmode) in *.
    cbn [throttle_out steering_out state printed].
    destruct (TargetCurvature_frame GetTarget sin cos atan2 config st)
      as (Hx & Hy & Hth & Hvf & Hvr & Hw & _ & _ & Hd & Htv & Htw & _).
    destruct (TargetCurvature_frame GetTarget' sin cos atan2' config st)
      as (Hx' & Hy' & Hth' & Hvf' & Hvr' & Hw' & _ & _ & Hd' & Htv' & Htw' & _).
    cbv zeta in *.
    unfold control_members.
    cbn [x_ y_ theta_ vf_ vr_ w_ ierr_v_ ierr_w_ delta_ target_v_ target_w_
         set_ierr_v set_ierr_w].
    rewrite Hx, Hy, Hth, Hvf, Hvr, Hw, Hd, Htv, Htw,
      Hx', Hy', Hth', Hvf', Hvr', Hw', Hd', Htv', Htw'.
    repeat split; reflexivity.
  - destruct (GetControl_active GetTarget sin cos atan2 config st throttle_in
                steering_in dt false frameno Hmode)
      as (Ht & Hs & Hiv & Hiw & Htv & Htw & _).
    destruct (GetControl_active GetTarget' sin cos atan2' config st throttle_in
                steering_in dt false frameno Hmode)
      as (Ht' & Hs' & Hiv' & Hiw' & Htv' & Htw' & _).
    fold r in Ht, Hs, Hiv, Hiw, Htv, Htw.
    fold r' in Ht', Hs', Hiv', Hiw', Htv', Htw'.
    unfold control_members.
    rewrite Fx, Fy, Ft, Fvf, Fvr, Fw, Fd, Fx', Fy', Ft', Fvf', Fvr', Fw', Fd'.
    rewrite Ht, Hs, Hiv, Hiw, Htv, Htw, Ht', Hs', Hiv', Hiw', Htv', Htw'.
    repeat split; try reflexivity. exact Hpr.
Qed.

Section Feedback.

Variable GetTarget : F32.t -> F32.t -> option TrackTarget.
Variable sin : F64.t -> F64.t.
Variable cos : F64.t -> F64.t.
Variable atan2 : F64.t -> F64.t -> F64.t.

Lemma control_members_inv (st st' : State) :
  control_members st = control_members st' ->
  x_ st = x_ st' /\ y_ st = y_ st' /\ theta_ st = theta_ st'
  /\ vf_ st = vf_ st' /\ vr_ st = vr_ st' /\ w_ st = w_ st'
  /\ ierr_v_ st = ierr_v_ st' /\ ierr_w_ st = ierr_w_ st'
  /\ delta_ st = delta_ st'.
Proof.
  unfold control_members. intros H.
  injection H as Hx Hy Ht Hvf Hvr Hw Hiv Hiw Hd. auto 10.
Qed.

Lemma TargetCurvature_reads_pose (config : DriverConfig) (st st' : State) :
  x_ st = x_ st' -> y_ st = y_ st' -> theta_ st = theta_ st' ->
  fst (TargetCurvature GetTarget sin cos atan2 config st)
  = fst (TargetCurvature GetTarget sin cos atan2 config st').
Proof.
  intros Hx Hy Ht. unfold TargetCurvature, lateral_error, heading_cos, heading_sin.
  rewrite Hx, Hy, Ht. destruct (GetTarget (x_ st') (y_ st')); reflexivity.
Qed.

(** X10.  The eight diagnostic members are written and never read: two
    states that agree on the nine members [x, y, theta, vf, vr, w, ierr_v,
    ierr_w, delta] give the same outputs, the same nine members after
    the call and the same message. *)
Theorem diagnostics_not_read
    (config : DriverConfig) (st st' : State) (throttle_in steering_in dt : F32.t)
    (autodrive : bool) (frameno : Z) :
  control_members st = control_members st' ->
  let r := GetControl GetTarget sin cos atan2 config st throttle_in steering_in
             dt autodrive frameno in
  let r' := GetControl GetTarget sin cos atan2 config st' throttle_in steering_in
              dt autodrive frameno in
  throttle_out r = throttle_out r' /\ steering_out r = steering_out r'
  /\ control_members (state r) = control_members (state r')
  /\ printed r = printed r'.
Proof.
  intros H r r'.
  destruct (control_members_inv st st' H)
    as (Hx & Hy & Ht & Hvf & Hvr & Hw & Hiv & Hiw & Hd).
  pose proof (TargetCurvature_reads_pose config st st' Hx Hy Ht) as Hk.
  assert (Hslip : vr_slip_target_of sin cos st = vr_slip_target_of sin cos st')
    by (unfold vr_slip_target_of; rewrite Hvf, Hw, Hd; reflexivity).
  assert (Hsel : forall s a, selected_k GetTarget sin cos atan2 config st s a
                             = selected_k GetTarget sin cos atan2 config st' s a)
    by (intros s a; unfold selected_k; rewrite Hk; reflexivity).
  assert (Hts : forall k v, target_speed sin cos config st k v
                            = target_speed sin cos config st' k v)
    by (intros k v; unfold target_speed; rewrite Hslip; reflexivity).
  pose proof (GetControl_frame GetTarget sin cos atan2 config st throttle_in
                steering_in dt autodrive frameno) as F.
  pose proof (GetControl_frame GetTarget sin cos atan2 config st' throttle_in
                steering_in dt autodrive frameno) as F'.
  pose proof (GetControl_printed GetTarget sin cos atan2 config st throttle_in
                steering_in dt autodrive frameno) as P.
  pose proof (GetControl_printed GetTarget sin cos atan2 config st' throttle_in
                steering_in dt autodrive frameno) as P'.
  cbv zeta in F, F', P, P'. fold r in F, P. fold r' in F', P'.
  destruct F as (Fx & Fy & Ft & Fvf & Fvr & Fw & Fd).
  destruct F' as (Fx' & Fy' & Ft' & Fvf' & Fvr' & Fw' & Fd').
  assert (Hpr : printed r = printed r')
    by (rewrite P, P', Hsel, Hslip, Hvf, Hvr; reflexivity).
  unfold control_members.
  rewrite Fx, Fy, Ft, Fvf, Fvr, Fw, Fd, Fx', Fy', Ft', Fvf', Fvr', Fw', Fd'.
  rewrite Hx, Hy, Ht, Hvf, Hvr, Hw, Hd.
  destruct (coasting autodrive throttle_in) eqn:Hmode.
  - unfold r, r'.
    rewrite (GetControl_coasting GetTarget sin cos atan2 config st _ _ _ _ _ Hmode).
    rewrite (GetControl_coasting GetTarget sin cos atan2 config st' _ _ _ _ _ Hmode).
    cbn [throttle_out steering_out state ierr_v_ ierr_w_ set_ierr_v set_ierr_w].
    repeat split; reflexivity.
  - destruct (GetControl_active GetTarget sin cos atan2 config st throttle_in
                steering_in dt autodrive frameno Hmode)
      as (Ht1 & Hs1 & Hiv1 & Hiw1 & _).
    destruct (GetControl_active GetTarget sin cos atan2 config st' throttle_in
                steering_in dt autodrive frameno Hmode)
      as (Ht2 & Hs2 & Hiv2 & Hiw2 & _).
    fold r in Ht1, Hs1, Hiv1, Hiw1. fold r' in Ht2, Hs2, Hiv2, Hiw2.
    rewrite Ht1, Hs1, Hiv1, Hiw1, Ht2, Hs2, Hiv2, Hiw2.
    rewrite Hsel, Hts, Hvr, Hw, Hiv, Hiw.
    repeat split; try reflexivity. exact Hpr.
Qed.

End Feedback.

(** ** Signs and exactness of the arithmetic *)

Section Signs.

Variables prec emax : Z.

(** Rounding keeps the sign it is given. *)
Lemma binary_round_aux_sign (s : bool) (m e : Z) (l : location) :
  0 <= m -> same_sign s (binary_round_aux prec emax s m e l) = true.
Proof.
  intros Hm. unfold binary_round_aux, shr_fexp.
  destruct (shr_m_shr m l e (fexp prec emax (Zdigits2 m + e) - e) Hm)
    as [Hm' _].
  destruct (shr (shr_record_of_loc m l) e
              (fexp prec emax (Zdigits2 m + e) - e)) as [mrs' e'].
  cbn [fst] in Hm'.
  set (m1 := round_nearest_even (shr_m mrs') (loc_of_shr_record mrs')).
  assert (Hm1 : 0 <= m1).
  { assert (0 <= shr_m mrs') by (rewrite Hm'; apply Z.div_pos; [lia|];
      apply Z.pow_pos_nonneg; lia).
    destruct (round_nearest_even_cases (shr_m mrs') (loc_of_shr_record mrs'))
      as [H1 | H1]; unfold m1; rewrite H1; lia. }
  destruct (shr_m_shr m1 loc_Exact e'
              (fexp prec emax (Zdigits2 m1 + e') - e') Hm1) as [Hm'' _].
  destruct (shr (shr_record_of_loc m1 loc_Exact) e'
              (fexp prec emax (Zdigits2 m1 + e') - e')) as [mrs'' e''].
  cbn [fst] in Hm''.
  assert (H2 : 0 <= shr_m mrs'')
    by (rewrite Hm''; apply Z.div_pos; [lia|]; apply Z.pow_pos_nonneg; lia).
  destruct (shr_m mrs'') as [|p|p]; try lia.
  - cbn. apply eqb_reflx.
  - destruct (e'' <=? emax - prec); cbn; apply eqb_reflx.
Qed.

Lemma binary_round_sign (s : bool) (m : positive) (e : Z) :
  same_sign s (binary_round prec emax s m e) = true.
Proof.
  unfold binary_round.
  destruct (shl_align m e (fexp prec emax (Zpos (digits2_pos m) + e)))
    as [mz ez].
  apply binary_round_aux_sign. lia.
Qed.

End Signs.

(** [0 <= x] as C tests it: [x] is a zero or a positive number or
    infinity. *)
Lemma leb0_sign (x : spec_float) :
  same_sign false x = true -> SFleb (S754_zero false) x = true.
Proof. destruct x as [s|s| |s m e]; cbn; try destruct s; intros H; try discriminate; reflexivity. Qed.

Lemma leb0_inv (x : spec_float) :
  SFleb (S754_zero false) x = true ->
  (exists s, x = S754_zero s) \/ x = S754_infinity false
  \/ (exists m e, x = S754_finite false m e).
Proof.
  destruct x as [s|s| |s m e]; cbn; try destruct s; intros H; try discriminate; eauto.
Qed.

Section SignsOfOperations.

Variables prec emax : Z.

Lemma SFmul_nonneg_finite (x : spec_float) (my : positive) (ey : Z) :
  SFleb (S754_zero false) x = true ->
  SFleb (S754_zero false) (SFmul prec emax x (S754_finite false my ey)) = true.
Proof.
  intros Hx. destruct (leb0_inv x Hx) as [[s ->] | [-> | (m & e & ->)]].
  - destruct s; reflexivity.
  - reflexivity.
  - apply leb0_sign. unfold SFmul. cbn [xorb].
    apply binary_round_aux_sign. lia.
Qed.

Lemma SFmul_zero_r (x : spec_float) (s : bool) :
  SFleb (S754_zero false) x = true -> x <> S754_infinity false ->
  F64.is_zero (SFmul prec emax x (S754_zero s)) = true.
Proof.
  intros Hx Hinf. destruct (leb0_inv x Hx) as [[s' ->] | [-> | (m & e & ->)]].
  - reflexivity.
  - contradiction.
  - reflexivity.
Qed.

Lemma SFdiv_zero_finite (x : spec_float) (sy : bool) (my : positive) (ey : Z) :
  F64.is_zero x = true ->
  F64.is_zero (SFdiv prec emax x (S754_finite sy my ey)) = true.
Proof. destruct x; cbn; intros H; try discriminate; reflexivity. Qed.

Lemma SFdiv_nonneg_finite (x : spec_float) (my : positive) (ey : Z) :
  SFleb (S754_zero false) x = true ->
  SFleb (S754_zero false) (SFdiv prec emax x (S754_finite false my ey)) = true.
Proof.
  intros Hx. destruct (leb0_inv x Hx) as [[s ->] | [-> | (m & e & ->)]].
  - destruct s; reflexivity.
  - reflexivity.
  - apply leb0_sign. unfold SFdiv, SFdiv_core_binary. cbn [xorb].
    set (sh := _ - _ - _).
    set (m' := match sh with Zpos _ => Z.shiftl (Zpos m) sh | 0 => Zpos m
                             | Zneg _ => 0 end).
    assert (Hm' : 0 <= m').
    { unfold m'. destruct sh; try lia. apply Z.shiftl_nonneg. lia. }
    pose proof (Z.div_pos m' (Zpos my) Hm' ltac:(lia)) as Hq.
    unfold Z.div in Hq.
    destruct (Z.div_eucl m' (Zpos my)) as [q r].
    apply binary_round_aux_sign. exact Hq.
Qed.

Lemma SFadd_nonneg (x y : spec_float) :
  SFleb (S754_zero false) x = true -> SFleb (S754_zero false) y = true ->
  SFleb (S754_zero false) (SFadd prec emax x y) = true.
Proof.
  intros Hx Hy.
  destruct (leb0_inv x Hx) as [[sx ->] | [-> | (mx & ex & ->)]];
    destruct (leb0_inv y Hy) as [[sy ->] | [-> | (my & ey & ->)]];
    try reflexivity.
  - destruct sx, sy; reflexivity.
  - apply leb0_sign. unfold SFadd. cbn [cond_Zopp Z.add].
    unfold binary_normalize. apply binary_round_sign.
Qed.

Lemma round_nonneg (x : spec_float) :
  SFleb (S754_zero false) x = true ->
  SFleb (S754_zero false)
    (match x with
     | S754_finite s m e => binary_round prec emax s m e
     | _ => x
     end) = true.
Proof.
  intros Hx. destruct (leb0_inv x Hx) as [[s ->] | [-> | (m & e & ->)]];
    try exact Hx.
  apply leb0_sign. apply binary_round_sign.
Qed.

End SignsOfOperations.

(** ** Conversions between [float] and [double] *)

Lemma iter_pos_eq {A : Type} (f : A -> A) (p : positive) : forall x : A,
  iter_pos f p x = Pos.iter f x p.
Proof.
  induction p as [p IH|p IH|]; intros x; cbn [iter_pos Pos.iter].
  - rewrite !IH, !Pos.iter_swap. reflexivity.
  - rewrite !IH. reflexivity.
  - reflexivity.
Qed.

(** Shifting out the zeros that were shifted in loses nothing. *)
Lemma shr_iter_xO (k : positive) : forall m : positive,
  iter_pos shr_1 k (Build_shr_record (Zpos (Pos.iter xO m k)) false false)
  = Build_shr_record (Zpos m) false false.
Proof.
  induction k as [|k IH] using Pos.peano_ind; intros m.
  - reflexivity.
  - rewrite iter_pos_eq, Pos.iter_succ, Pos.iter_succ_r, <- iter_pos_eq.
    rewrite IH. reflexivity.
Qed.

Lemma bounded32_digits (m : positive) (e : Z) :
  bounded 24 128 m e = true ->
  Zpos (digits2_pos m) <= 24 /\ -149 <= e <= 104
  /\ Z.max (Zpos (digits2_pos m) + e - 24) (-149) = e.
Proof.
  intros H. destruct (bounded32_inv m e H) as [Hc He]. lia.
Qed.

(** The [double] of a [float] is the same number: the mantissa is
    padded with zeros to fifty-three bits. *)
Lemma to_double_finite (s : bool) (m : positive) (e : Z) :
  bounded 24 128 m e = true ->
  let k := Z.to_pos (53 - Zpos (digits2_pos m)) in
  to_double (S754_finite s m e) = S754_finite s (Pos.iter xO m k) (e - Zpos k).
Proof.
  intros H k. destruct (bounded32_digits m e H) as (Hd & He & Hc).
  assert (Hk : Zpos k = 53 - Zpos (digits2_pos m))
    by (unfold k; rewrite Z2Pos.id; lia).
  unfold to_double, F64.round, binary_round, shl_align.
  change F64.prec with 53. change F64.emax with 1024.
  rewrite (fexp_eq 53 1024).
  replace (Z.max (Zpos (digits2_pos m) + e - 53) (3 - 1024 - 53) - e)
    with (Zneg k) by lia.
  replace (Z.max (Zpos (digits2_pos m) + e - 53) (3 - 1024 - 53))
    with (e - Zpos k) by lia.
  unfold binary_round_aux, shr_fexp. cbn [Zdigits2].
  rewrite digits2_pos_iter_xO, Pos2Z.inj_add, (fexp_eq 53 1024).
  replace (Z.max (Zpos (digits2_pos m) + Zpos k + (e - Zpos k) - 53)
             (3 - 1024 - 53) - (e - Zpos k)) with 0 by lia.
  cbn [shr shr_record_of_loc shr_m loc_of_shr_record round_nearest_even
       Zdigits2].
  rewrite digits2_pos_iter_xO, Pos2Z.inj_add, (fexp_eq 53 1024).
  replace (Z.max (Zpos (digits2_pos m) + Zpos k + (e - Zpos k) - 53)
             (3 - 1024 - 53) - (e - Zpos k)) with 0 by lia.
  cbn [shr shr_record_of_loc shr_m].
  replace (e - Zpos k <=? 1024 - 53) with true
    by (symmetry; apply Z.leb_le; lia).
  reflexivity.
Qed.

(** Back to [float] it is the [float] it was. *)
Lemma to_float_to_double (x : F32.t) :
  valid_binary 24 128 x = true -> to_float (to_double x) = x.
Proof.
  destruct x as [s|s| |s m e]; try reflexivity.
  cbn [valid_binary]. intros H.
  rewrite (to_double_finite s m e H).
  destruct (bounded32_digits m e H) as (Hd & He & Hc).
  set (k := Z.to_pos (53 - Zpos (digits2_pos m))).
  assert (Hk : Zpos k = 53 - Zpos (digits2_pos m))
    by (unfold k; rewrite Z2Pos.id; lia).
  unfold to_float, F32.round, binary_round, shl_align.
  change F32.prec with 24. change F32.emax with 128.
  rewrite digits2_pos_iter_xO, Pos2Z.inj_add, (fexp_eq 24 128).
  replace (Z.max (Zpos (digits2_pos m) + Zpos k + (e - Zpos k) - 24)
             (3 - 128 - 24) - (e - Zpos k)) with (Zpos k) by lia.
  unfold binary_round_aux, shr_fexp. cbn [Zdigits2].
  rewrite digits2_pos_iter_xO, Pos2Z.inj_add, (fexp_eq 24 128).
  replace (Z.max (Zpos (digits2_pos m) + Zpos k + (e - Zpos k) - 24)
             (3 - 128 - 24) - (e - Zpos k)) with (Zpos k) by lia.
  cbn [shr shr_record_of_loc]. rewrite shr_iter_xO.
  cbn [shr_m loc_of_shr_record round_nearest_even Zdigits2].
  rewrite (fexp_eq 24 128).
  replace (Z.max (Zpos (digits2_pos m) + (e - Zpos k + Zpos k) - 24)
             (3 - 128 - 24) - (e - Zpos k + Zpos k)) with 0 by lia.
  cbn [shr shr_record_of_loc shr_m].
  replace (e - Zpos k + Zpos k <=? 128 - 24) with true
    by (symmetry; apply Z.leb_le; lia).
  f_equal. lia.
Qed.

(** A function on [float] is the [float] overload of a function on
    [double]. *)
Lemma float_overload (f : F32.t -> F32.t) (x : F32.t) :
  valid_binary 24 128 x = true -> valid_binary 24 128 (f x) = true ->
  to_float ((fun d : F64.t => to_double (f (to_float d))) (to_double x)) = f x.
Proof.
  intros Hx Hf. cbv beta. rewrite (to_float_to_double x Hx).
  apply to_float_to_double. exact Hf.
Qed.

Section Validity.

Variables prec emax : Z.
Hypothesis Hprec : 0 < prec.

(** What rounding returns is a value of the format (possibly an
    infinity). *)
Lemma binary_round_aux_valid (s : bool) (m e : Z) (l : location) :
  0 < m ->
  e <= fexp prec emax (Zdigits2 m + e) ->
  valid_binary prec emax (binary_round_aux prec emax s m e l) = true.
Proof.
  intros Hm Hn.
  unfold binary_round_aux, shr_fexp.
  set (mag := Zdigits2 m + e) in *.
  set (E := fexp prec emax mag) in *.
  pose proof (fexp_eq prec emax mag) as HE. fold E in HE.
  destruct (shr_m_shr m l e (E - e) ltac:(lia)) as [Hm' He'].
  destruct (shr (shr_record_of_loc m l) e (E - e)) as [mrs' e'].
  cbn [fst snd] in Hm', He'.
  replace (e + Z.max 0 (E - e)) with E in He' by lia.
  replace (Z.max 0 (E - e)) with (E - e) in Hm' by lia.
  subst e'.
  set (m' := shr_m mrs') in *.
  assert (Hd' : (m' = 0 /\ mag <= E) \/ (0 < m' /\ Zdigits2 m' = mag - E)).
  { destruct (Zdigits2_div_pow2 m (E - e) Hm ltac:(lia))
      as [[Hle Hz] | [Hlt [Hpos Hdig]]].
    - left. rewrite Hm'. split; [exact Hz | unfold mag; lia].
    - right. rewrite Hm'. split; [exact Hpos | unfold mag; lia]. }
  set (m1 := round_nearest_even m' (loc_of_shr_record mrs')).
  assert (Hm1 : m1 = m' \/ m1 = m' + 1) by apply round_nearest_even_cases.
  assert (Hm'0 : 0 <= m') by lia.
  pose proof (Zdigits2_succ m' Hm'0) as Hsucc.
  set (d1 := Zdigits2 m1).
  assert (Hd1 : (m1 = 0 /\ d1 = 0)
                \/ (0 < m1 /\ 1 <= d1 /\ d1 <= Z.max (mag - E) 0 + 1 /\
                    (mag - E <= d1 \/ (mag <= E /\ d1 = 1)))).
  { unfold d1. destruct Hm1 as [-> | ->].
    - destruct Hd' as [[Hz _] | [Hpos Hdig]].
      + left. rewrite Hz. split; reflexivity.
      + right. assert (1 <= Zdigits2 m') by (destruct m'; try lia; cbn; lia).
        lia.
    - right. destruct Hd' as [[Hz Hle] | [Hpos Hdig]].
      + rewrite Hz. cbn. lia.
      + assert (1 <= Zdigits2 m') by (destruct m'; try lia; cbn; lia).
        lia. }
  pose proof (fexp_eq prec emax (d1 + E)) as HE2.
  destruct Hd1 as [[Hz Hdz] | (Hpos1 & Hd1lo & Hd1hi & Hd1c)].
  - destruct (shr_m_shr m1 loc_Exact E (fexp prec emax (d1 + E) - E) ltac:(lia))
      as [Hm'' _].
    destruct (shr (shr_record_of_loc m1 loc_Exact) E
                (fexp prec emax (d1 + E) - E)) as [mrs'' e''].
    cbn [fst] in Hm''. rewrite Hm'', Hz. rewrite Z.div_0_l; [reflexivity|].
    apply Z.pow_nonzero; lia.
  - set (n2 := fexp prec emax (d1 + E) - E) in *.
    assert (Hn2 : 0 <= n2 <= 1 /\ n2 < d1) by (unfold n2; lia).
    destruct Hn2 as (Hn2a & Hn2b).
    destruct (shr_m_shr m1 loc_Exact E n2 ltac:(lia)) as [Hm'' He''].
    destruct (shr (shr_record_of_loc m1 loc_Exact) E n2) as [mrs'' e''].
    cbn [fst snd] in Hm'', He''.
    replace (Z.max 0 n2) with n2 in Hm'', He'' by lia.
    destruct (Zdigits2_div_pow2 m1 n2 Hpos1 ltac:(lia))
      as [[Hle _] | (_ & Hpos2 & Hdig2)]; [fold d1 in Hle; lia|].
    fold d1 in Hdig2. rewrite <- Hm'' in Hpos2, Hdig2.
    destruct (shr_m mrs'') as [|m2|m2]; try lia.
    cbn [Zdigits2] in Hdig2.
    destruct (e'' <=? emax - prec) eqn:Hfin; [|reflexivity].
    cbn [valid_binary]. apply bounded_intro; [|apply Z.leb_le; exact Hfin].
    rewrite Hdig2, He''.
    replace (d1 - n2 + (E + n2)) with (d1 + E) by lia. unfold n2. lia.
Qed.

Lemma SFmul_valid (x : spec_float) (sy : bool) (my : positive) (ey : Z) :
  prec <= Zpos (digits2_pos my) ->
  valid_binary prec emax (SFmul prec emax x (S754_finite sy my ey)) = true.
Proof.
  intros Hy. destruct x as [sx|sx| |sx mx ex]; try reflexivity.
  unfold SFmul.
  pose proof (Zdigits2_mul_bounds mx my) as [Hlo Hhi].
  pose proof (fexp_eq prec emax (Zpos (digits2_pos (mx * my)) + (ex + ey))) as HE.
  apply binary_round_aux_valid; cbn [Zdigits2]; lia.
Qed.

End Validity.

(** ** The speed filter *)

Lemma decay_factor : (f1 - V_ALPHA)%f32 = S754_finite false 11744051 (-24).
Proof. vm_compute. reflexivity. Qed.

Lemma one_half : dec 1 2 = S754_finite false 4503599627370496 (-53).
Proof. vm_compute. reflexivity. Qed.

Lemma number_below_inv (prec emax B : Z) (x : spec_float) :
  number_below prec emax B x = true ->
  (exists s, x = S754_zero s) \/ (exists s m e, x = S754_finite s m e).
Proof. destruct x; cbn; intros H; try discriminate; eauto. Qed.

(** The [double] of a count. *)
Lemma of_Z_count (n : Z) :
  0 <= n < 2 ^ 63 ->
  F64.of_Z n = S754_zero false \/ exists m e, F64.of_Z n = S754_finite false m e.
Proof.
  intros Hn. pose proof (of_Z_number n ltac:(lia)) as Hnum.
  destruct n as [|p|p]; try lia; [left; reflexivity|].
  pose proof (binary_round_sign 53 1024 false p 0) as Hs.
  change (binary_round 53 1024 false p 0) with (F64.of_Z (Zpos p)) in Hs.
  destruct (number_below_inv _ _ _ _ Hnum) as [[s H] | (s & m & e & H)];
    rewrite H in Hs |- *; cbn in Hs; destruct s; try discriminate; eauto.
Qed.

Lemma to_double_positive (dt : F32.t) :
  F32.is_number dt = true -> (dt > f0)%f32 = true ->
  exists m e, to_double dt = S754_finite false m e.
Proof.
  intros Hn Hp.
  destruct dt as [s|s| |s m e]; try discriminate Hn; try discriminate Hp.
  destruct s; try discriminate Hp.
  rewrite (to_double_finite false m e Hn). eauto.
Qed.

Lemma to_double_nonzero (dt : F32.t) :
  F32.is_number dt = true -> F32.is_zero dt = false ->
  exists s m e, to_double dt = S754_finite s m e.
Proof.
  intros Hn Hp.
  destruct dt as [s|s| |s m e]; try discriminate Hn; try discriminate Hp.
  rewrite (to_double_finite s m e Hn). eauto.
Qed.

Section EstimatorFacts.

Variable c : F64.t.
Hypothesis Hc : number_below 53 1024 1023 c = true.

Lemma scaled_half_number :
  number_below 53 1024 1024 (c * dec 1 2)%f64 = true.
Proof.
  rewrite one_half.
  exact (mul_number 53 1024 ltac:(lia) ltac:(lia) c false 4503599627370496
           (-53) 1023 Hc ltac:(cbn; lia) ltac:(cbn; lia) ltac:(cbn; lia)).
Qed.

Lemma speed_increment_zero (a b : Z) (dt : F32.t) :
  a + b = 0 -> F32.is_number dt = true -> F32.is_zero dt = false ->
  F64.is_zero (speed_increment c a b dt) = true.
Proof.
  intros Hab Hdt Hdt0. unfold speed_increment. rewrite Hab.
  change (F64.of_Z 0) with (S754_zero false).
  destruct (to_double_nonzero dt Hdt Hdt0) as (s & m & e & ->).
  destruct (number_below_inv _ _ _ _ scaled_half_number) as [[s1 H] | (s1 & m1 & e1 & H)];
    rewrite H; reflexivity.
Qed.

Hypothesis Hc0 : (F64.of_Z 0 <= c)%f64 = true.

Lemma speed_increment_nonneg (a b : Z) (dt : F32.t) :
  0 <= a + b < 2 ^ 63 -> F32.is_number dt = true -> (dt > f0)%f32 = true ->
  (F64.of_Z 0 <= speed_increment c a b dt)%f64 = true.
Proof.
  intros Hab Hdt Hdt0. unfold speed_increment.
  destruct (to_double_positive dt Hdt Hdt0) as (md & ed & ->).
  apply (SFdiv_nonneg_finite F64.prec F64.emax).
  assert (H1 : SFleb (S754_zero false) (c * dec 1 2)%f64 = true).
  { rewrite one_half. apply (SFmul_nonneg_finite F64.prec F64.emax). exact Hc0. }
  destruct (of_Z_count (a + b) Hab) as [-> | (m & e & ->)].
  - destruct (number_below_inv _ _ _ _ scaled_half_number)
      as [[s1 H] | (s1 & m1 & e1 & H)]; rewrite H in H1 |- *.
    + reflexivity.
    + destruct s1; [discriminate H1 | reflexivity].
  - apply (SFmul_nonneg_finite F64.prec F64.emax). exact H1.
Qed.

Lemma filter_step_nonneg (v : F32.t) (a b : Z) (dt : F32.t) :
  0 <= a + b < 2 ^ 63 -> F32.is_number dt = true -> (dt > f0)%f32 = true ->
  (f0 <= v)%f32 = true ->
  (f0 <= filter_step c v a b dt)%f32 = true.
Proof.
  intros Hab Hdt Hdt0 Hv. unfold filter_step, to_float, F32.round.
  apply (round_nonneg F32.prec F32.emax).
  apply (SFadd_nonneg F64.prec F64.emax).
  - unfold to_double, F64.round. apply (round_nonneg F64.prec F64.emax).
    rewrite decay_factor. apply (SFmul_nonneg_finite F32.prec F32.emax).
    exact Hv.
  - apply speed_increment_nonneg; assumption.
Qed.

End EstimatorFacts.

Lemma filter_step_standstill (c : F64.t) (v : F32.t) (a b : Z) (dt : F32.t) :
  number_below 53 1024 1023 c = true ->
  a + b = 0 -> F32.is_number dt = true -> F32.is_zero dt = false ->
  let decayed := (v * (f1 - V_ALPHA))%f32 in
  (F32.is_zero decayed = false -> filter_step c v a b dt = decayed)
  /\ (F32.is_zero decayed = true -> F32.is_zero (filter_step c v a b dt) = true).
Proof.
  intros Hc Hab Hdt Hdt0 decayed.
  pose proof (speed_increment_zero c Hc a b dt Hab Hdt Hdt0) as Hinc.
  assert (Hval : valid_binary 24 128 decayed = true).
  { unfold decayed. rewrite decay_factor.
    apply (SFmul_valid 24 128 ltac:(lia)). cbn. lia. }
  unfold filter_step. fold decayed.
  destruct (speed_increment c a b dt) as [si| | |]; try discriminate Hinc.
  split; intros Hz.
  - rewrite <- (to_float_to_double decayed Hval) at 2. f_equal.
    destruct decayed as [s|s| |s m e]; try discriminate Hz; try reflexivity.
    cbn [valid_binary] in Hval. rewrite (to_double_finite s m e Hval).
    reflexivity.
  - destruct decayed as [s|s| |s m e]; try discriminate Hz.
    destruct s, si; reflexivity.
Qed.

(** ** The servo calibration *)

Lemma servo_table_all (p : Z) : uint8 p -> In (p, servo_angle p) servo_table.
Proof.
  intros Hp. unfold servo_table, servo_positions.
  apply in_map_iff. exists p. split; [reflexivity|].
  apply in_map_iff.
  exists (Z.to_nat p). split; [unfold uint8 in Hp; lia|].
  apply in_seq. unfold uint8 in Hp. lia.
Qed.

Lemma servo_table_checked : servo_table_ok servo_table = true.
Proof. vm_compute. reflexivity. Qed.

Lemma servo_table_ok_inv (tbl : list (Z * F32.t)) (p q : Z) (d e : F32.t) :
  servo_table_ok tbl = true -> In (p, d) tbl -> In (q, e) tbl ->
  F32.is_number d = true
  /\ (F32.abs d < flt 106 100)%f32 = true
  /\ (d < f0)%f32 = (p <=? 126)
  /\ (d > f0)%f32 = (127 <=? p)
  /\ (p < q -> (d < e)%f32 = true).
Proof.
  intros Htbl Hp Hq.
  pose proof (proj1 (forallb_forall _ _) Htbl _ Hp) as H.
  unfold servo_entry_ok in H.
  apply andb_prop in H. destruct H as [Hok Hinc].
  apply andb_prop in Hok. destruct Hok as [Hok H4].
  apply andb_prop in Hok. destruct Hok as [Hok H3].
  apply andb_prop in Hok. destruct Hok as [H1 H2].
  apply eqb_prop in H3, H4.
  split; [exact H1|]. split; [exact H2|]. split; [exact H3|].
  split; [exact H4|].
  intros Hpq.
  pose proof (proj1 (forallb_forall _ _) Hinc _ Hq) as H.
  cbn [fst snd] in H. apply Z.ltb_lt in Hpq. rewrite Hpq in H.
  exact H.
Qed.

(** X11.  The steering angle [UpdateState] stores (line 47), for the
    256 values of a [uint8_t]: it is a number, of magnitude under 1.06,
    negative up to position 126 and positive from 127 on (never zero),
    and strictly increasing in the position. *)
Theorem servo_angle_calibration (p q : Z) :
  uint8 p -> uint8 q ->
  F32.is_number (servo_angle p) = true
  /\ (F32.abs (servo_angle p) < flt 106 100)%f32 = true
  /\ (servo_angle p < f0)%f32 = (p <=? 126)
  /\ (servo_angle p > f0)%f32 = (127 <=? p)
  /\ (p < q -> (servo_angle p < servo_angle q)%f32 = true).
Proof.
  intros Hp Hq.
  exact (servo_table_ok_inv servo_table p q (servo_angle p) (servo_angle q)
           servo_table_checked (servo_table_all p Hp) (servo_table_all q Hq)).
Qed.

(** ** The estimator and the controller together *)

Lemma decayed_zero (v : F32.t) :
  F32.is_zero v = true -> F32.is_zero (v * (f1 - V_ALPHA))%f32 = true.
Proof.
  intros H. rewrite decay_factor.
  destruct v as [s| | |]; try discriminate H. destruct s; reflexivity.
Qed.

Lemma gtb_zero (v : F32.t) : F32.is_zero v = true -> (v > f0)%f32 = false.
Proof.
  intros H. destruct v as [s| | |]; try discriminate H. destruct s; reflexivity.
Qed.

(** X12.  The speed filter of [UpdateState] (lines 50-53) keeps a speed
    estimate non-negative: with a constant [V_ALPHA * V_SCALE] that is a
    non-negative number under [2 ^ 1023] and a time step that is a
    positive number, an estimate that is [>= 0] before the call is
    [>= 0] after it, for all wheel counts of a [uint16_t]. *)
Theorem UpdateState_speeds_nonneg
    (c : F64.t) (config : DriverConfig) (accel gyro : Vector3f)
    (servo_pos : Z) (wheel_delta : WheelDelta) (dt : F32.t) (st : State) :
  number_below 53 1024 1023 c = true ->
  (F64.of_Z 0 <= c)%f64 = true ->
  F32.is_number dt = true -> (dt > f0)%f32 = true ->
  uint16 (wd_0 wheel_delta) -> uint16 (wd_1 wheel_delta) ->
  uint16 (wd_2 wheel_delta) -> uint16 (wd_3 wheel_delta) ->
  let st' := UpdateState c config accel gyro servo_pos wheel_delta dt st in
  ((f0 <= vf_ st)%f32 = true -> (f0 <= vf_ st')%f32 = true)
  /\ ((f0 <= vr_ st)%f32 = true -> (f0 <= vr_ st')%f32 = true).
Proof.
  intros Hc Hc0 Hdt Hdt0 H0 H1 H2 H3 st'. unfold uint16 in *.
  split; intros Hv; cbn [st' UpdateState vf_ vr_];
    apply filter_step_nonneg; try assumption; lia.
Qed.

(** X13.  With the four wheel counts zero the filter is an exact decay:
    each speed estimate becomes [v * (1 - V_ALPHA)], the float product,
    with no further rounding; when that product is a zero the estimate
    is a zero (its sign may differ).  The constant is a number under
    [2 ^ 1023] and the time step a number other than zero. *)
Theorem UpdateState_standstill
    (c : F64.t) (config : DriverConfig) (accel gyro : Vector3f)
    (servo_pos : Z) (dt : F32.t) (st : State) :
  number_below 53 1024 1023 c = true ->
  F32.is_number dt = true -> F32.is_zero dt = false ->
  let st' := UpdateState c config accel gyro servo_pos (mkWheelDelta 0 0 0 0)
               dt st in
  let decayed (v : F32.t) := (v * (f1 - V_ALPHA))%f32 in
  (F32.is_zero (decayed (vf_ st)) = false -> vf_ st' = decayed (vf_ st))
  /\ (F32.is_zero (decayed (vf_ st)) = true -> F32.is_zero (vf_ st') = true)
  /\ (F32.is_zero (decayed (vr_ st)) = false -> vr_ st' = decayed (vr_ st))
  /\ (F32.is_zero (decayed (vr_ st)) = true -> F32.is_zero (vr_ st') = true).
Proof.
  intros Hc Hdt Hdt0 st' decayed.
  destruct (filter_step_standstill c (vf_ st) 0 0 dt Hc eq_refl Hdt Hdt0)
    as [Hf1 Hf2].
  destruct (filter_step_standstill c (vr_ st) 0 0 dt Hc eq_refl Hdt Hdt0)
    as [Hr1 Hr2].
  split; [exact Hf1|]. split; [exact Hf2|]. split; [exact Hr1 | exact Hr2].
Qed.

Section WholeController.

Variable GetTarget : F32.t -> F32.t -> option TrackTarget.
Variable sin : F64.t -> F64.t.
Variable cos : F64.t -> F64.t.
Variable atan2 : F64.t -> F64.t -> F64.t.

Local Notation TargetCurvature' := (TargetCurvature GetTarget sin cos atan2).
Local Notation GetControl' := (GetControl GetTarget sin cos atan2).

Lemma pose_curvature (config : DriverConfig) (st st' : State) :
  pose_members st' = pose_members st ->
  fst (TargetCurvature' config st') = fst (TargetCurvature' config st).
Proof.
  unfold pose_members. intros H. injection H as Hx Hy Ht.
  apply TargetCurvature_reads_pose; assumption.
Qed.

(** X14.  No function of the file writes the pose: [ResetState],
    [UpdateState], [TargetCurvature] and [GetControl] all keep [x_],
    [y_] and [theta_], so the curvature [TargetCurvature] returns for a
    given config is the same after any of them as before. *)
Theorem pose_never_written
    (c : F64.t) (config config' : DriverConfig) (accel gyro : Vector3f)
    (servo_pos : Z) (wheel_delta : WheelDelta)
    (throttle_in steering_in dt : F32.t) (autodrive : bool) (frameno : Z)
    (st : State) :
  let kept (st' : State) :=
    pose_members st' = pose_members st
    /\ fst (TargetCurvature' config st') = fst (TargetCurvature' config st) in
  kept (ResetState st)
  /\ kept (UpdateState c config' accel gyro servo_pos wheel_delta dt st)
  /\ kept (snd (TargetCurvature' config' st))
  /\ kept (state (GetControl' config' st throttle_in steering_in dt autodrive
                    frameno)).
Proof.
  intros kept.
  assert (Hk : forall st', pose_members st' = pose_members st -> kept st')
    by (intros st' Hp; split; [exact Hp | apply pose_curvature; exact Hp]).
  split; [apply Hk; reflexivity|]. split; [apply Hk; reflexivity|].
  split; apply Hk.
  - destruct (TargetCurvature_frame GetTarget sin cos atan2 config' st)
      as (Hx & Hy & Ht & _).
    cbv zeta in Hx, Hy, Ht. unfold pose_members. rewrite Hx, Hy, Ht.
    reflexivity.
  - destruct (GetControl_frame GetTarget sin cos atan2 config' st throttle_in
                steering_in dt autodrive frameno) as (Hx & Hy & Ht & _).
    cbv zeta in Hx, Hy, Ht. unfold pose_members. rewrite Hx, Hy, Ht.
    reflexivity.
Qed.

(** X15.  Standing still is kept: [ResetState] makes both speed
    estimates zero; when they are zero, [UpdateState] with no wheel
    counts and [GetControl] keep them zero, and outside the coasting
    branch [GetControl] gives no negative throttle. *)
Theorem standstill_invariant
    (c : F64.t) (config : DriverConfig) (accel gyro : Vector3f)
    (servo_pos : Z) (throttle_in steering_in dt : F32.t) (autodrive : bool)
    (frameno : Z) (st : State) :
  number_below 53 1024 1023 c = true ->
  F32.is_number dt = true -> F32.is_zero dt = false ->
  let at_rest (s : State) := F32.is_zero (vf_ s) && F32.is_zero (vr_ s) in
  let r := GetControl' config st throttle_in steering_in dt autodrive frameno in
  at_rest (ResetState st) = true
  /\ (at_rest st = true ->
      at_rest (UpdateState c config accel gyro servo_pos
                 (mkWheelDelta 0 0 0 0) dt st) = true
      /\ at_rest (state r) = true
      /\ (coasting autodrive throttle_in = false ->
          (throttle_out r < f0)%f32 = false)).
Proof.
  intros Hc Hdt Hdt0 at_rest r. split; [reflexivity|].
  intros Hrest. unfold at_rest in Hrest. apply andb_prop in Hrest.
  destruct Hrest as [Hvf Hvr]. split; [|split].
  - unfold at_rest. cbn [UpdateState vf_ vr_ wd_0 wd_1 wd_2 wd_3].
    destruct (filter_step_standstill c (vf_ st) 0 0 dt Hc eq_refl Hdt Hdt0)
      as [_ Hf].
    destruct (filter_step_standstill c (vr_ st) 0 0 dt Hc eq_refl Hdt Hdt0)
      as [_ Hr].
    cbv zeta in Hf, Hr.
    rewrite (Hf (decayed_zero _ Hvf)), (Hr (decayed_zero _ Hvr)). reflexivity.
  - destruct (GetControl_frame GetTarget sin cos atan2 config st throttle_in
                steering_in dt autodrive frameno)
      as (_ & _ & _ & Hf & Hr & _).
    cbv zeta in Hf, Hr. fold r in Hf, Hr. unfold at_rest.
    rewrite Hf, Hr, Hvf, Hvr. reflexivity.
  - intros Hmode.
    destruct (GetControl_active GetTarget sin cos atan2 config st throttle_in
                steering_in dt autodrive frameno Hmode) as (Ht & _).
    fold r in Ht. rewrite (gtb_zero _ Hvr), andb_false_r in Ht.
    rewrite Ht. apply drive_law_not_negative.
Qed.

End WholeController.

(** ** The record determines the state *)

(** Fields that do not overlap: [lor] is the sum. *)
Lemma lor_shiftl_low (hi lo n : Z) :
  0 <= n -> 0 <= lo < 2 ^ n -> Z.lor (Z.shiftl hi n) lo = hi * 2 ^ n + lo.
Proof.
  intros Hn Hlo. rewrite <- Z.shiftl_mul_pow2 by exact Hn.
  rewrite <- Z.add_lor_land.
  replace (Z.land (Z.shiftl hi n) lo) with 0; [lia|].
  symmetry. apply Z.bits_inj'. intros i Hi.
  rewrite Z.land_spec, Z.bits_0.
  destruct (Z.lt_ge_cases i n) as [Hlt | Hge].
  - rewrite (Z.shiftl_spec_low hi n i Hlt). reflexivity.
  - replace (Z.testbit lo i) with false; [apply andb_false_r|].
    symmetry. apply Z.testbit_false; [exact Hi|].
    rewrite Z.div_small; [reflexivity|].
    pose proof (Z.pow_le_mono_r 2 n i ltac:(lia) Hge). lia.
Qed.

(** The mantissa and exponent of a [float] in canonical form: a normal
    number has twenty-four digits, a subnormal one the least exponent. *)
Lemma bounded32_fields (m : positive) (e : Z) :
  bounded 24 128 m e = true ->
  (2 ^ 23 <= Zpos m < 2 ^ 24 /\ -149 <= e <= 104)
  \/ (Zpos m < 2 ^ 23 /\ e = -149).
Proof.
  intros H. destruct (bounded32_inv m e H) as [Hc He].
  pose proof (digits2_pos_bounds m) as Hd.
  set (d := Zpos (digits2_pos m)) in *.
  assert (Hd0 : 0 < d) by (unfold d; lia).
  destruct (Z.le_gt_cases d 23) as [Hs | Hn].
  - right. pose proof (Z.pow_le_mono_r 2 d 23 ltac:(lia) Hs). lia.
  - left. assert (d = 24) by lia.
    replace d with 24 in Hd by lia. change (24 - 1) with 23 in Hd. lia.
Qed.

(** The object representation as sign, exponent field and fraction
    field. *)
Lemma bits_of_float_sum (x : F32.t) :
  valid_binary 24 128 x = true ->
  bits_of_float x
  = match x with
    | S754_zero s => Z.b2z s * 2 ^ 31
    | S754_infinity s => Z.b2z s * 2 ^ 31 + 255 * 2 ^ 23
    | S754_nan => 255 * 2 ^ 23 + 2 ^ 22
    | S754_finite s m e =>
      if 2 ^ 23 <=? Zpos m
      then Z.b2z s * 2 ^ 31 + (e + 150) * 2 ^ 23 + (Zpos m - 2 ^ 23)
      else Z.b2z s * 2 ^ 31 + Zpos m
    end.
Proof.
  intros Hv. destruct x as [s|s| |s m e]; unfold bits_of_float.
  - rewrite Z.shiftl_mul_pow2 by lia. reflexivity.
  - rewrite lor_shiftl_low by lia. reflexivity.
  - reflexivity.
  - cbn [valid_binary] in Hv.
    change 0x800000 with (2 ^ 23).
    destruct (bounded32_fields m e Hv) as [[Hm He] | [Hm He]].
    + replace (2 ^ 23 <=? Zpos m) with true by (symmetry; apply Z.leb_le; lia).
      rewrite (lor_shiftl_low (e + 150) (Zpos m - 2 ^ 23) 23) by lia.
      rewrite lor_shiftl_low by lia. lia.
    + replace (2 ^ 23 <=? Zpos m) with false by (symmetry; apply Z.leb_gt; lia).
      rewrite lor_shiftl_low by lia. reflexivity.
Qed.

Lemma bits_of_float_range (x : F32.t) :
  valid_binary 24 128 x = true -> 0 <= bits_of_float x < 2 ^ 32.
Proof.
  intros Hv. rewrite (bits_of_float_sum x Hv).
  destruct x as [s|s| |s m e].
  - destruct s; cbn; lia.
  - destruct s; cbn; lia.
  - cbn; lia.
  - cbn [valid_binary] in Hv.
    destruct (bounded32_fields m e Hv) as [[Hm He] | [Hm He]].
    + replace (2 ^ 23 <=? Zpos m) with true by (symmetry; apply Z.leb_le; lia).
      destruct s; cbn [Z.b2z]; lia.
    + replace (2 ^ 23 <=? Zpos m) with false by (symmetry; apply Z.leb_gt; lia).
      destruct s; cbn [Z.b2z]; lia.
Qed.

(** Two [float]s with the same object representation are the same. *)
Lemma bits_of_float_inj (x y : F32.t) :
  valid_binary 24 128 x = true -> valid_binary 24 128 y = true ->
  bits_of_float x = bits_of_float y -> x = y.
Proof.
  intros Hx Hy. rewrite (bits_of_float_sum x Hx), (bits_of_float_sum y Hy).
  destruct x as [s|s| |s m e], y as [s'|s'| |s' m' e'];
    cbn [valid_binary] in Hx, Hy;
    try (destruct (bounded32_fields m e Hx) as [[Hm He] | [Hm He]];
         [replace (2 ^ 23 <=? Zpos m) with true
            by (symmetry; apply Z.leb_le; lia)
         |replace (2 ^ 23 <=? Zpos m) with false
            by (symmetry; apply Z.leb_gt; lia)]);
    try (destruct (bounded32_fields m' e' Hy) as [[Hm' He'] | [Hm' He']];
         [replace (2 ^ 23 <=? Zpos m') with true
            by (symmetry; apply Z.leb_le; lia)
         |replace (2 ^ 23 <=? Zpos m') with false
            by (symmetry; apply Z.leb_gt; lia)]);
    try (destruct s; cbn [Z.b2z]); try (destruct s'; cbn [Z.b2z]);
    intros H; try reflexivity; try lia;
    (assert (Hme : Zpos m = Zpos m' /\ e = e') by lia;
     destruct Hme as [Hme1 Hme2]; congruence).
Qed.

Lemma float_bytes_inj (x y : F32.t) :
  valid_binary 24 128 x = true -> valid_binary 24 128 y = true ->
  float_bytes x = float_bytes y -> x = y.
Proof.
  intros Hx Hy H. apply bits_of_float_inj; try assumption.
  apply (f_equal le_combine) in H. unfold float_bytes in H.
  rewrite !le_combine_split in H. change (Z.of_nat sizeof_float * 8) with 32 in H.
  rewrite !Z.mod_small in H by (apply bits_of_float_range; assumption).
  exact H.
Qed.

Lemma app_inj_length {A : Type} (a b c d : list A) :
  length a = length b -> a ++ c = b ++ d -> a = b /\ c = d.
Proof.
  revert b. induction a as [|x a IH]; intros [|y b] Hl H;
    try discriminate Hl.
  - split; [reflexivity | exact H].
  - cbn in H. injection H as -> H. injection Hl as Hl.
    destruct (IH b Hl H) as [-> ->]. split; reflexivity.
Qed.

Lemma concat_float_bytes_inj (l l' : list F32.t) :
  length l = length l' ->
  forallb (valid_binary 24 128) l = true ->
  forallb (valid_binary 24 128) l' = true ->
  concat (map float_bytes l) = concat (map float_bytes l') -> l = l'.
Proof.
  revert l'. induction l as [|x l IH]; intros [|y l'] Hl Hv Hv' H;
    try discriminate Hl; [reflexivity|].
  cbn [forallb] in Hv, Hv'. apply andb_prop in Hv, Hv'.
  destruct Hv as [Hx Hv], Hv' as [Hy Hv'].
  cbn [map concat] in H.
  destruct (app_inj_length (float_bytes x) (float_bytes y) _ _
              (eq_trans (float_bytes_length x)
                        (eq_sym (float_bytes_length y))) H) as [H1 H2].
  rewrite (float_bytes_inj x y Hx Hy H1). f_equal.
  injection Hl as Hl. exact (IH l' Hl Hv Hv' H2).
Qed.

Lemma members_inj (st st' : State) : members st = members st' -> st = st'.
Proof.
  destruct st, st'. unfold members. cbn. intros H.
  injection H as -> -> -> -> -> -> -> -> -> -> -> -> -> -> -> -> ->.
  reflexivity.
Qed.

Lemma Serialize_some (st : State) (buf out : list byte) (buflen n : Z) :
  Serialize st buf buflen = Some (out, n) -> 68 <= buflen.
Proof.
  unfold Serialize. destruct (buflen <? 68) eqn:E; [discriminate|].
  intros _. apply Z.ltb_ge. exact E.
Qed.

Lemma Some_pair_inj {A B : Type} (a a' : A) (b b' : B) :
  Some (a, b) = Some (a', b') -> a = a' /\ b = b'.
Proof. intros H. injection H as -> ->. split; reflexivity. Qed.

Lemma Serialize_record (st : State) (buf out : list byte) (buflen n : Z) :
  (68 <= length buf)%nat ->
  Serialize st buf buflen = Some (out, n) ->
  firstn 68 out = concat (map float_bytes (members st))
  /\ skipn 68 out = skipn 68 buf /\ n = 68.
Proof.
  intros Hbuf H. pose proof (Serialize_some _ _ _ _ _ H) as Hlen.
  rewrite (Serialize_fills st buf buflen Hlen Hbuf) in H.
  destruct (Some_pair_inj _ _ _ _ H) as [Ho Hn]. subst out n.
  fold (members st).
  assert (Hl : length (concat (map float_bytes (members st))) = 68%nat)
    by reflexivity.
  split; [|split; [|reflexivity]].
  - rewrite firstn_app, Hl. change (68 - 68)%nat with 0%nat.
    rewrite firstn_all2 by (rewrite Hl; lia). cbn [firstn]. apply app_nil_r.
  - rewrite skipn_app, Hl. change (68 - 68)%nat with 0%nat.
    rewrite skipn_all2 by (rewrite Hl; lia). reflexivity.
Qed.

(** X16.  The record [Serialize] writes determines the state: two
    states whose members are values of a [float] and whose records (the
    first 68 bytes written) are equal are the same state, whatever the
    buffers held before. *)
Theorem Serialize_lossless
    (st st' : State) (buf buf' out out' : list byte) (buflen buflen' n n' : Z) :
  state_valid st = true -> state_valid st' = true ->
  (68 <= length buf)%nat -> (68 <= length buf')%nat ->
  Serialize st buf buflen = Some (out, n) ->
  Serialize st' buf' buflen' = Some (out', n') ->
  firstn 68 out = firstn 68 out' ->
  st = st'.
Proof.
  intros Hv Hv' Hb Hb' H H' Heq.
  destruct (Serialize_record st buf out buflen n Hb H) as (H1 & _).
  destruct (Serialize_record st' buf' out' buflen' n' Hb' H') as (H1' & _).
  apply members_inj. apply concat_float_bytes_inj.
  - reflexivity.
  - exact Hv.
  - exact Hv'.
  - rewrite <- H1, <- H1'. exact Heq.
Qed.

(** X17.  [Serialize] overwrites: the result depends on the first 68
    bytes of the buffer in no way.  Writing the same state again changes
    nothing, writing another state over a record gives what writing it
    over the original buffer gives, and two buffers with the same bytes
    from offset 68 on end up the same. *)
Theorem Serialize_overwrites
    (st : State) (buf : list byte) (buflen : Z) :
  68 <= buflen -> (68 <= length buf)%nat ->
  exists out : list byte,
    Serialize st buf buflen = Some (out, 68)
    /\ Serialize st out buflen = Some (out, 68)
    /\ (forall (st' : State) (buflen' : Z),
          Serialize st' out buflen' = Serialize st' buf buflen')
    /\ (forall buf0 : list byte,
          (68 <= length buf0)%nat -> skipn 68 buf0 = skipn 68 buf ->
          Serialize st buf0 buflen = Some (out, 68)).
Proof.
  intros Hlen Hbuf. eexists. split; [apply Serialize_fills; assumption|].
  set (rec := concat (map float_bytes _)).
  assert (Hl : length rec = 68%nat) by reflexivity.
  assert (Hs : skipn 68 (rec ++ skipn 68 buf) = skipn 68 buf).
  { rewrite skipn_app, Hl. change (68 - 68)%nat with 0%nat.
    rewrite skipn_all2 by (rewrite Hl; lia). reflexivity. }
  assert (Ho : (68 <= length (rec ++ skipn 68 buf))%nat)
    by (rewrite length_app, Hl; lia).
  split; [|split].
  - rewrite (Serialize_fills st _ buflen Hlen Ho), Hs. reflexivity.
  - intros st' buflen'. destruct (Z.lt_ge_cases buflen' 68) as [Hlt | Hge].
    + unfold Serialize.
      replace (buflen' <? 68) with true by (symmetry; apply Z.ltb_lt; lia).
      reflexivity.
    + rewrite (Serialize_fills st' _ buflen' Hge Ho), Hs.
      rewrite (Serialize_fills st' buf buflen' Hge Hbuf). reflexivity.
  - intros buf0 Hb0 Hs0.
    rewrite (Serialize_fills st buf0 buflen Hlen Hb0), Hs0. reflexivity.
Qed.

(** * The properties at concrete inputs *)

(** On the x axis, heading along it, a path of curvature 0.5: the law
    returns 0.5. *)
Lemma TargetCurvature_on_path_witness :
  fst (TargetCurvature (track_along_x (flt 1 2))
         sin_at_zero cos_at_zero atan2_at_zero
         scenario_config (state_at_origin f0 f0))
  = flt 1 2.
Proof.
  refine (proj2 (TargetCurvature_on_path (track_along_x (flt 1 2))
                   sin_at_zero cos_at_zero atan2_at_zero
                   scenario_config (state_at_origin f0 f0)
                   (mkTarget f0 f0 f0 f1 (flt 1 2)) _ _ _ _ _ _ _) _);
    try (vm_compute; reflexivity); unfold c_integer; cbn; lia.
Defined.

(** Why the curvature of C1 is a number: on the path and heading along
    it, an infinite [k] makes [k * ye] NaN, and NaN is returned. *)
Example TargetCurvature_infinite_curvature :
  fst (TargetCurvature (track_along_x (S754_infinity false))
         sin_at_zero cos_at_zero atan2_at_zero
         scenario_config (state_at_origin f0 f0))
  = S754_nan.
Proof. vm_compute. reflexivity. Qed.

(** Driving by hand at full throttle and full steering, 1.1 m/s on both
    axles: [k = -2] is over [kmin]; the traction limit allows
    [sqrt 1.5] = 1.2247 and the slip target 1.1 is lower and above 1.0,
    so the target speed is 1.1. *)
Lemma target_speed_traction_limited_witness :
  target_v_ (state (GetControl no_track sin_at_zero cos_at_zero atan2_at_zero
                      scenario_config (state_at_origin (flt 11 10) f0)
                      f1 f1 (flt 1 100) false 7))
  = flt 11 10.
Proof.
  rewrite (proj1 (target_speed_traction_limited no_track
                    sin_at_zero cos_at_zero atan2_at_zero
                    scenario_config (state_at_origin (flt 11 10) f0)
                    f1 f1 (flt 1 100) false 7 eq_refl));
    vm_compute; reflexivity.
Defined.

(** The slip target is computed in [float], operation by operation.
    With the servo at position 0, front speed 0.6019153, yaw rate
    0.6883317 and rear speed 2, driving by hand at full throttle and
    full steering: the slip target is 1.0000001, the float next above 1,
    so it is over the floor and under the traction-limited 1.2247; it
    becomes the target speed and is printed.  (The same expression
    rounded once from [double] would be 1.0 exactly, not over the
    floor.) *)
Example slip_target_in_float :
  let r := GetControl no_track sin_at_servo_0 cos_at_servo_0 atan2_at_zero
             scenario_config state_in_turn f1 f1 (flt 1 100) false 7 in
  let slip := S754_finite false 8388609 (-23) in
  map bits_of_float
    [vf_ state_in_turn; w_ state_in_turn; delta_ state_in_turn;
     sin_servo_0; cos_servo_0; slip]
  = [0x3f1a171f; 0x3f303681; 0xbf857cbb; 0xbf5d2579; 0x3f00f55d; 0x3f800001]
  /\ vr_slip_target_of sin_at_servo_0 cos_at_servo_0 state_in_turn = slip
  /\ target_v_ (state r) = slip
  /\ printed r
     = [mkSlipEvent 7 slip (vf_ state_in_turn) (vr_ state_in_turn)]
  /\ to_float
       ((to_double (vf_ state_in_turn)
         + to_double (w_ state_in_turn * GEOM_LF)%f32 * to_double sin_servo_0)
        / to_double cos_servo_0)%f64
     = f1.
Proof. vm_compute. auto 6. Qed.

(** In the same turn at front speed 1 and yaw rate 2.8 the slip target
    is 1.1923877.  At rear speed 1 it is the target speed and the
    velocity integrator moves by [dt * err_v] to -0.0019238769; at rear
    speed 1.3 the drive law gives 0 and the braking law -0.119849615. *)
Example slip_target_in_turn :
  let r := GetControl no_track sin_at_servo_0 cos_at_servo_0 atan2_at_zero
             scenario_config (state_turning f1) f1 f1 (flt 1 100) false 7 in
  let r' := GetControl no_track sin_at_servo_0 cos_at_servo_0 atan2_at_zero
              scenario_config (state_turning (flt 13 10)) f1 f1 (flt 1 100)
              false 7 in
  map bits_of_float
    [target_v_ (state r); ierr_v_ (state r); target_v_ (state r');
     throttle_out r']
  = [0x3f98a029; 0xbafc2a99; 0x3f98a029; 0xbdf573b7].
Proof. vm_compute. reflexivity. Qed.

(** The scenario of the spec: not autodriving, throttle 0, steering
    0.5, with both integrators at 3 beforehand. *)
Lemma coasting_passthrough_witness :
  let r := GetControl no_track sin_at_zero cos_at_zero atan2_at_zero
             scenario_config (state_at_origin (flt 11 10) (flt 3 1))
             f0 (flt 1 2) (flt 1 100) false 7 in
  throttle_out r = f0 /\ steering_out r = flt (-1) 2
  /\ ierr_v_ (state r) = f0 /\ ierr_w_ (state r) = f0.
Proof.
  destruct (coasting_passthrough no_track sin_at_zero cos_at_zero atan2_at_zero
              scenario_config (state_at_origin (flt 11 10) (flt 3 1))
              f0 (flt 1 2) (flt 1 100) 7 eq_refl)
    as (Ht & Hs & Hv & Hw & _).
  cbv zeta. rewrite Ht, Hs, Hv, Hw. vm_compute. auto.
Defined.

(** C5 fails when coasting: a throttle input of -5 is returned as it
    is, below -1 (and a steering input of 2 comes out as -2). *)
Lemma coasting_outputs_unbounded :
  let r := GetControl no_track sin_at_zero cos_at_zero atan2_at_zero
             scenario_config (state_at_origin f0 f0)
             (flt (-5) 1) f2 (flt 1 100) false 7 in
  throttle_out r = flt (-5) 1
  /\ (fm1 <= throttle_out r)%f32 = false
  /\ steering_out r = flt (-2) 1
  /\ (fm1 <= steering_out r)%f32 = false.
Proof. vm_compute. auto. Qed.

(** In active mode an output can be NaN with every input a number in
    range: under autodrive, at rest one metre to the left of a path of
    curvature 1 (so at its centre of curvature, where [1 - k*ye = 0]),
    the target curvature is infinite, the target yaw rate [k * vr] is
    NaN and so is the steering. *)
Example steering_nan_at_centre_of_curvature :
  let r := GetControl (track_along_x f1) sin_at_zero cos_at_zero atan2_at_zero
             scenario_config (state_at_rest f1) f1 f0 (flt 1 100) true 7 in
  target_k_ (state r) = S754_infinity true
  /\ target_w_ (state r) = S754_nan
  /\ steering_out r = S754_nan.
Proof. vm_compute. auto. Qed.

(** Autodrive with no path at 1.5 m/s: neither law gives NaN, the
    brake is full, the steering 0.375, both in range. *)
Lemma outputs_bounded_witness :
  let r := GetControl no_track sin_at_zero cos_at_zero atan2_at_zero
             scenario_config (state_at_origin (flt 3 2) f0)
             f1 f0 (flt 1 100) true 7 in
  (F32.is_nan (throttle_out r) = false
   /\ (fm1 <= throttle_out r)%f32 = true /\ (throttle_out r <= f1)%f32 = true)
  /\ (F32.is_nan (steering_out r) = false
      /\ (fm1 <= steering_out r)%f32 = true
      /\ (steering_out r <= f1)%f32 = true).
Proof.
  destruct (proj1 (outputs_bounded no_track sin_at_zero cos_at_zero
                     atan2_at_zero scenario_config
                     (state_at_origin (flt 3 2) f0) f1 f0 (flt 1 100) true 7)
              eq_refl)
    as (Hnt & Ht & Hns & Hs).
  cbv zeta. split.
  - split; [rewrite Hnt; vm_compute; reflexivity|].
    apply Ht. vm_compute. reflexivity.
  - split; [rewrite Hns; vm_compute; reflexivity|].
    apply Hs. vm_compute. reflexivity.
Defined.

(** At rest with full throttle by hand the drive law saturates at 1
    and the velocity integrator keeps its 0.25. *)
Lemma velocity_integrator_antiwindup_witness :
  let r := GetControl no_track sin_at_zero cos_at_zero atan2_at_zero
             scenario_config (state_at_origin f0 (flt 1 4))
             f1 f0 (flt 1 100) false 7 in
  throttle_out r = f1 /\ ierr_v_ (state r) = flt 1 4.
Proof.
  split; [vm_compute; reflexivity|].
  rewrite (proj2 (proj2 (velocity_integrator_antiwindup no_track
                           sin_at_zero cos_at_zero atan2_at_zero
                           scenario_config (state_at_origin f0 (flt 1 4))
                           f1 f0 (flt 1 100) false 7 eq_refl)));
    vm_compute; reflexivity.
Defined.

(** Steering hard right by hand at 1.1 m/s with the yaw integrator at
    3: the steering saturates at -1, the error -2.2 is of the sign
    opposite to the integrator's, and the integrator moves towards zero
    by [dt * err_w]. *)
Lemma yaw_integrator_antiwindup_witness :
  let r := GetControl no_track sin_at_zero cos_at_zero atan2_at_zero
             scenario_config (state_at_origin (flt 11 10) (flt 3 1))
             f1 fm1 (flt 1 100) false 7 in
  steering_out r = fm1
  /\ ierr_w_ (state r) = (flt 3 1 + flt 1 100 * flt (-22) 10)%f32.
Proof.
  split; [vm_compute; reflexivity|].
  rewrite (proj1 (yaw_integrator_antiwindup no_track
                    sin_at_zero cos_at_zero atan2_at_zero
                    scenario_config (state_at_origin (flt 11 10) (flt 3 1))
                    f1 fm1 (flt 1 100) false 7 eq_refl));
    vm_compute; reflexivity.
Defined.

(** C8 fails on its open bound: by hand at full throttle, 5.09 m/s
    against a target of 5, the drive law gives 0, the car moves, and the
    braking law gives 0 too, which is not strictly negative. *)
Lemma braking_throttle_zero :
  let st := state_at_origin (flt 509 100) f0 in
  let r := GetControl no_track sin_at_zero cos_at_zero atan2_at_zero
             scenario_config st f1 f0 (flt 1 100) false 7 in
  let err_v := speed_error no_track sin_at_zero cos_at_zero atan2_at_zero
                 scenario_config st f1 f0 false in
  coasting false f1 = false
  /\ (drive_law (bandwidth (motor_bw scenario_config)) (vr_ st) err_v
        (ierr_v_ st) == f0)%f32 = true
  /\ (vr_ st > f0)%f32 = true
  /\ throttle_out r = f0
  /\ (throttle_out r < f0)%f32 = false.
Proof. vm_compute. auto 6. Qed.

(** At 6 m/s against a target of 5 the braking law saturates at -1. *)
Lemma braking_law_range_witness :
  throttle_out (GetControl no_track sin_at_zero cos_at_zero atan2_at_zero
                  scenario_config (state_at_origin (flt 6 1) f0)
                  f1 f0 (flt 1 100) false 7)
  = fm1.
Proof.
  rewrite (proj1 (braking_law_range no_track
                    sin_at_zero cos_at_zero atan2_at_zero
                    scenario_config (state_at_origin (flt 6 1) f0)
                    f1 f0 (flt 1 100) false 7 eq_refl eq_refl eq_refl)).
  vm_compute. reflexivity.
Defined.

(** The scenario of the spec: no path loaded, autodrive, throttle 1,
    steering 0; at 1.5 m/s the target yaw rate is 3. *)
Lemma no_target_fallback_witness :
  let st := state_at_origin (flt 3 2) f0 in
  let r := GetControl no_track sin_at_zero cos_at_zero atan2_at_zero
             scenario_config st f1 f0 (flt 1 100) true 7 in
  fst (TargetCurvature no_track sin_at_zero cos_at_zero atan2_at_zero
         scenario_config st) = f2
  /\ target_w_ (state r) = flt 3 1.
Proof.
  destruct (no_target_fallback no_track sin_at_zero cos_at_zero atan2_at_zero
              scenario_config (state_at_origin (flt 3 2) f0) eq_refl)
    as [HTC Hgc].
  cbv zeta. rewrite HTC.
  rewrite (proj2 (Hgc f1 f0 (flt 1 100) 7)).
  vm_compute. auto.
Defined.

(** C10 fails: coasting with no path loaded, every diagnostic keeps the
    value it held before the call, be it 3 or 7. *)
Lemma diagnostics_kept_when_coasting :
  diagnostics
    (state (GetControl no_track sin_at_zero cos_at_zero atan2_at_zero
              scenario_config (state_at_origin f0 (flt 3 1))
              f0 f0 (flt 1 100) false 7))
  = repeat (flt 3 1) 8
  /\ diagnostics
       (state (GetControl no_track sin_at_zero cos_at_zero atan2_at_zero
                 scenario_config (state_at_origin f0 (flt 7 1))
                 f0 f0 (flt 1 100) false 8))
     = repeat (flt 7 1) 8.
Proof. vm_compute. auto. Qed.

(** The record of [sample_state] written into a buffer of seventy bytes
    0xAA: the sixty-eight bytes a little-endian machine holds for the
    seventeen floats, then the last two bytes of the buffer. *)
Example Serialize_sample :
  option_map (fun r => (map byte.unsigned (fst r), snd r))
    (Serialize sample_state (repeat Byte.xaa 70) 70)
  = Some ([
          0; 0; 0; 63; 0; 0; 192; 191; 0; 0; 128; 62; 205; 204; 140;
          63; 154; 153; 153; 63; 154; 153; 153; 190; 10; 215; 35; 60;
          10; 215; 163; 188; 205; 204; 204; 61; 0; 0; 0; 64; 0; 0;
          192; 63; 0; 0; 64; 64; 0; 0; 0; 62; 0; 0; 64; 191; 205; 204;
          76; 62; 219; 15; 73; 64; 219; 15; 201; 64; 170; 170],
          68).
Proof. vm_compute. reflexivity. Qed.

(** 3 clipped to [-1, 1] is in the range and no NaN. *)
Lemma clip_result_witness :
  F32.is_nan (clip (flt 3 1) fm1 f1) = false
  /\ (fm1 <= clip (flt 3 1) fm1 f1)%f32 = true
  /\ (clip (flt 3 1) fm1 f1 <= f1)%f32 = true.
Proof.
  destruct (clip_result (flt 3 1) fm1 f1 eq_refl eq_refl eq_refl) as [Hn Hb].
  split; [rewrite Hn; vm_compute; reflexivity|].
  apply Hb. vm_compute. reflexivity.
Defined.

(** 3 clipped to [-1, 1] twice is 3 clipped once. *)
Lemma clip_idempotent_witness :
  clip (clip (flt 3 1) fm1 f1) fm1 f1 = clip (flt 3 1) fm1 f1.
Proof.
  exact (proj1 (clip_idempotent (flt 3 1) fm1 f1 eq_refl eq_refl eq_refl)).
Defined.

(** Servo position 100 is a turn to the negative side, less than
    position 200 gives. *)
Lemma servo_angle_calibration_witness :
  F32.is_number (servo_angle 100) = true
  /\ (servo_angle 100 < f0)%f32 = true
  /\ (servo_angle 100 < servo_angle 200)%f32 = true.
Proof.
  destruct (servo_angle_calibration 100 200
              ltac:(unfold uint8; lia) ltac:(unfold uint8; lia))
    as (H1 & _ & H3 & _ & H5).
  split; [exact H1|]. split; [rewrite H3; reflexivity|].
  apply H5. lia.
Defined.

(** At 1.1 m/s, ten and twelve counts in front and nine and eleven
    behind in 10 ms: both estimates stay non-negative. *)
Lemma UpdateState_speeds_nonneg_witness :
  let st' := UpdateState sample_scale scenario_config level level 127
               (mkWheelDelta 10 12 9 11) (flt 1 100)
               (state_at_origin (flt 11 10) f0) in
  (f0 <= vf_ st')%f32 = true /\ (f0 <= vr_ st')%f32 = true.
Proof.
  destruct (UpdateState_speeds_nonneg sample_scale scenario_config level level
              127 (mkWheelDelta 10 12 9 11) (flt 1 100)
              (state_at_origin (flt 11 10) f0)
              ltac:(vm_compute; reflexivity) ltac:(vm_compute; reflexivity)
              ltac:(vm_compute; reflexivity) ltac:(vm_compute; reflexivity)
              ltac:(unfold uint16; cbn; lia) ltac:(unfold uint16; cbn; lia)
              ltac:(unfold uint16; cbn; lia) ltac:(unfold uint16; cbn; lia))
    as [Hf Hr].
  split; [apply Hf | apply Hr]; vm_compute; reflexivity.
Defined.

(** At 1.1 m/s with the wheels still, both estimates decay by the factor
    [1 - V_ALPHA]. *)
Lemma UpdateState_standstill_witness :
  let st' := UpdateState sample_scale scenario_config level level 127
               (mkWheelDelta 0 0 0 0) (flt 1 100)
               (state_at_origin (flt 11 10) f0) in
  vf_ st' = (flt 11 10 * (f1 - V_ALPHA))%f32
  /\ vr_ st' = (flt 11 10 * (f1 - V_ALPHA))%f32.
Proof.
  destruct (UpdateState_standstill sample_scale scenario_config level level
              127 (flt 1 100) (state_at_origin (flt 11 10) f0)
              ltac:(vm_compute; reflexivity) ltac:(vm_compute; reflexivity)
              ltac:(vm_compute; reflexivity))
    as (Hf & _ & Hr & _).
  split; [apply Hf | apply Hr]; vm_compute; reflexivity.
Defined.

(** A car at rest, driven by hand at full throttle: the estimates stay
    zero through an update and a tick, and the throttle is not
    negative. *)
Lemma standstill_invariant_witness :
  let st := state_at_rest f0 in
  let r := GetControl no_track sin_at_zero cos_at_zero atan2_at_zero
             scenario_config st f1 f0 (flt 1 100) false 7 in
  F32.is_zero (vf_ (UpdateState sample_scale scenario_config level level 127
                      (mkWheelDelta 0 0 0 0) (flt 1 100) st))
  && F32.is_zero (vr_ (UpdateState sample_scale scenario_config level level 127
                         (mkWheelDelta 0 0 0 0) (flt 1 100) st)) = true
  /\ (throttle_out r < f0)%f32 = false.
Proof.
  destruct (standstill_invariant no_track sin_at_zero cos_at_zero atan2_at_zero
              sample_scale scenario_config level level 127 f1 f0 (flt 1 100)
              false 7 (state_at_rest f0)
              ltac:(vm_compute; reflexivity) ltac:(vm_compute; reflexivity)
              ltac:(vm_compute; reflexivity))
    as (_ & H).
  destruct (H ltac:(vm_compute; reflexivity)) as (Hu & _ & Ht).
  split; [exact Hu | apply Ht; vm_compute; reflexivity].
Defined.

(** Two coasting ticks, the second with other inputs: the state after
    the second is the state after the first. *)
Lemma coasting_tick_idempotent_witness :
  let st1 := state (GetControl (track_along_x (flt 1 2))
                      sin_at_zero cos_at_zero atan2_at_zero
                      scenario_config (state_at_origin (flt 11 10) (flt 3 1))
                      f0 (flt 1 2) (flt 1 100) false 7) in
  state (GetControl (track_along_x (flt 1 2))
           sin_at_zero cos_at_zero atan2_at_zero
           scenario_config st1 fm1 f0 (flt 2 100) false 8)
  = st1.
Proof.
  exact (coasting_tick_idempotent (track_along_x (flt 1 2))
           sin_at_zero cos_at_zero atan2_at_zero
           scenario_config (state_at_origin (flt 11 10) (flt 3 1))
           f0 (flt 1 2) (flt 1 100) fm1 f0 (flt 2 100) false false 7 8
           ltac:(vm_compute; reflexivity) ltac:(vm_compute; reflexivity)).
Defined.

(** At 6 m/s against a target of 5 the throttle is -1: the rear wheels
    turn. *)
Lemma brakes_only_when_moving_witness :
  (vr_ (state_at_origin (flt 6 1) f0) > f0)%f32 = true.
Proof.
  exact (brakes_only_when_moving no_track sin_at_zero cos_at_zero atan2_at_zero
           scenario_config (state_at_origin (flt 6 1) f0)
           f1 f0 (flt 1 100) false 7
           ltac:(vm_compute; reflexivity) ltac:(vm_compute; reflexivity)).
Defined.

(** Two states that differ in every diagnostic: the same outputs. *)
Lemma diagnostics_not_read_witness :
  let st := state_at_origin (flt 11 10) f0 in
  let st' := set_loop_diag (set_path_diag st f1 f2 f1 f2) f1 f2 f1 f2 in
  let r := GetControl no_track sin_at_zero cos_at_zero atan2_at_zero
             scenario_config st f1 f1 (flt 1 100) true 7 in
  let r' := GetControl no_track sin_at_zero cos_at_zero atan2_at_zero
              scenario_config st' f1 f1 (flt 1 100) true 7 in
  diagnostics st = repeat f0 8
  /\ diagnostics st' = [f2; f1; f2; f1; f2; f1; f1; f2]
  /\ throttle_out r = throttle_out r' /\ steering_out r = steering_out r'.
Proof.
  intros st st' r r'.
  split; [vm_compute; reflexivity|]. split; [vm_compute; reflexivity|].
  destruct (diagnostics_not_read no_track sin_at_zero cos_at_zero atan2_at_zero
              scenario_config st st' f1 f1 (flt 1 100) true 7 eq_refl)
    as (Ht & Hs & _).
  exact (conj Ht Hs).
Defined.

(** The record of [sample_state] in two buffers that differ. *)
Lemma Serialize_lossless_witness :
  set_ierr_v sample_state (flt 1 100) = sample_state.
Proof.
  refine (Serialize_lossless _ _ (repeat Byte.xaa 70) (repeat Byte.x00 68)
            _ _ 70 68 68 68 _ _ _ _
            (Serialize_fills _ _ 70 _ _) (Serialize_fills _ _ 68 _ _) _);
    try (vm_compute; reflexivity); try (cbn; lia).
Defined.

(** Writing [sample_state] over its own record changes nothing. *)
Lemma Serialize_overwrites_witness :
  exists out : list byte,
    Serialize sample_state (repeat Byte.xaa 70) 70 = Some (out, 68)
    /\ Serialize sample_state out 70 = Some (out, 68).
Proof.
  destruct (Serialize_overwrites sample_state (repeat Byte.xaa 70) 70
              ltac:(lia) ltac:(cbn; lia)) as (out & H1 & H2 & _).
  exists out. exact (conj H1 H2).
Defined.
